(** * The GBK encoding handler of the tokenizer (src/enc/yp_gbk.c)

    A shallow embedding of [yp_gbk_codepoint] and of the four queries
    built on it, with the byte window kept as explicit memory: every
    [*uc], [uc[0]] and [uc[1]] of the C text is a load from the buffer,
    loads are logged, and a load outside the buffer has no result. *)

From Stdlib Require Import ZArith List Bool Lia String.
From Stdlib Require Import Strings.Byte.
Import ListNotations.

Local Open Scope Z_scope.

(** ** Memory reads *)

Module Mem.

(** A computation over the buffer that [c] points to.  [None] is a load
    outside the buffer; otherwise the value comes with the indexes that
    were loaded, in program order. *)
Definition M (A : Type) : Type := list byte -> option (A * list nat).

Definition ret {A} (a : A) : M A := fun _ => Some (a, []).

Definition bind {A B} (m : M A) (k : A -> M B) : M B :=
  fun buf =>
    match m buf with
    | None => None
    | Some (a, t1) =>
        match k a buf with
        | None => None
        | Some (b, t2) => Some (b, t1 ++ t2)
        end
    end.

Definition load (i : nat) : M byte :=
  fun buf =>
    match nth_error buf i with
    | Some b => Some (b, [i])
    | None => None
    end.

(** The value of a run, and the indexes it loaded. *)
Definition result {A} (m : M A) (buf : list byte) : option A :=
  option_map fst (m buf).

Definition reads {A} (m : M A) (buf : list byte) : option (list nat) :=
  option_map snd (m buf).

End Mem.

Import Mem.

Declare Scope mem_scope.
Delimit Scope mem_scope with mem.
Notation "x <- m ;; k" := (bind m (fun x => k))
  (at level 61, m at next level, right associativity) : mem_scope.
Notation "' p <- m ;; k" := (bind m (fun p => k))
  (at level 61, p pattern, m at next level, right associativity) : mem_scope.

Local Open Scope mem_scope.

(** ** C expressions over the window *)

(** The unsigned value of a [char], as read through the
    [const unsigned char] pointer [uc]. *)
Definition uc (b : byte) : Z := Z.of_N (Byte.to_N b).

(** [uc[i]] *)
Definition uc_at (i : nat) : M Z := b <- load i ;; ret (uc b).

(** [e < k], [e >= k], [e <= k], [e != k] with [e] read from memory *)
Definition lt_c (e : M Z) (k : Z) : M bool := x <- e ;; ret (x <? k).
Definition ge_c (e : M Z) (k : Z) : M bool := x <- e ;; ret (k <=? x).
Definition le_c (e : M Z) (k : Z) : M bool := x <- e ;; ret (x <=? k).
Definition ne_c (e : M Z) (k : Z) : M bool := x <- e ;; ret (negb (x =? k)).

(** [&&] and [||]: the right operand runs only when the left one does not
    decide. *)
Definition and_c (a b : M bool) : M bool :=
  x <- a ;; if x then b else ret false.
Definition or_c (a b : M bool) : M bool :=
  x <- a ;; if x then ret true else b.

Infix "&&&" := and_c (at level 40, left associativity) : mem_scope.
Infix "|||" := or_c (at level 50, left associativity) : mem_scope.

(** [(yp_gbk_codepoint_t) e], [yp_gbk_codepoint_t] being [uint16_t] *)
Definition yp_gbk_codepoint_t (e : Z) : Z := e mod 2 ^ 16.

(** [(const char) e] *)
Definition to_char (e : Z) : byte :=
  match Byte.of_N (Z.to_N (e mod 2 ^ 8)) with
  | Some b => b
  | None => x00
  end.

(** ** The five double-byte bands (lines 19-23) *)

(** [(uc[i] >= lo && uc[i] <= hi)] *)
Definition between (i : nat) (lo hi : Z) : M bool :=
  ge_c (uc_at i) lo &&& le_c (uc_at i) hi.

Definition gbk_1_lead : M bool := between 0 0xA1 0xA9.
Definition gbk_1_trail : M bool := between 1 0xA1 0xFE.
Definition gbk_2_lead : M bool := between 0 0xB0 0xF7.
Definition gbk_2_trail : M bool := between 1 0xA1 0xFE.
Definition gbk_3_lead : M bool := between 0 0x81 0xA0.
Definition gbk_3_trail : M bool := between 1 0x40 0xFE.
Definition gbk_4_lead : M bool := between 0 0xAA 0xFE.
Definition gbk_4_trail : M bool := between 1 0x40 0xA0.
Definition gbk_5_lead : M bool := between 0 0xA8 0xA9.
Definition gbk_5_trail : M bool := between 1 0x40 0xA0.

Definition gbk_1 : M bool := gbk_1_lead &&& gbk_1_trail.
Definition gbk_2 : M bool := gbk_2_lead &&& gbk_2_trail.
Definition gbk_3 : M bool :=
  gbk_3_lead &&& gbk_3_trail &&& ne_c (uc_at 1) 0x7F.
Definition gbk_4 : M bool :=
  gbk_4_lead &&& gbk_4_trail &&& ne_c (uc_at 1) 0x7F.
Definition gbk_5 : M bool :=
  gbk_5_lead &&& gbk_5_trail &&& ne_c (uc_at 1) 0x7F.

(** ** The decoder *)

(** [yp_gbk_codepoint(c, n, &width)]: the returned codepoint paired with
    the value stored to [*width]; [c] is the buffer of the computation. *)
Definition yp_gbk_codepoint (n : Z) : M (Z * Z) :=
  single <- lt_c (uc_at 0) 0x80 ;;
  if single then
    v <- uc_at 0 ;; ret (yp_gbk_codepoint_t v, 1)
  else
    double <-
      ret (1 <? n) &&& (gbk_1 ||| gbk_2 ||| gbk_3 ||| gbk_4 ||| gbk_5) ;;
    if double then
      hi <- uc_at 0 ;;
      lo <- uc_at 1 ;;
      ret (yp_gbk_codepoint_t (Z.lor (Z.shiftl hi 8) lo), 2)
    else
      ret (0, 0).

(** ** The four queries *)

Definition yp_encoding_gbk_char_width (n : Z) : M Z :=
  '(_, width) <- yp_gbk_codepoint n ;;
  ret width.

(** The descriptor type of yp_encoding.h, as lines 81-88 fill it. *)
Record yp_encoding_t : Type := {
  name : string;
  char_width : Z -> M Z;
  alnum_char : Z -> M Z;
  alpha_char : Z -> M Z;
  isupper_char : Z -> M bool;
  multibyte : bool
}.

Section Handler.

(** The single-byte classifiers of the ASCII handler, which this file
    only calls: each takes the buffer its pointer argument addresses and
    a length. *)
Variable yp_encoding_ascii_alpha_char : list byte -> Z -> Z.
Variable yp_encoding_ascii_alnum_char : list byte -> Z -> Z.
Variable yp_encoding_ascii_isupper_char : list byte -> Z -> bool.

Definition yp_encoding_gbk_alpha_char (n : Z) : M Z :=
  '(codepoint, width) <- yp_gbk_codepoint n ;;
  if width =? 1 then
    let value := to_char codepoint in
    ret (yp_encoding_ascii_alpha_char [value] n)
  else
    ret 0.

Definition yp_encoding_gbk_alnum_char (n : Z) : M Z :=
  '(codepoint, width) <- yp_gbk_codepoint n ;;
  if width =? 1 then
    let value := to_char codepoint in
    ret (yp_encoding_ascii_alnum_char [value] n)
  else
    ret 0.

Definition yp_encoding_gbk_isupper_char (n : Z) : M bool :=
  '(codepoint, width) <- yp_gbk_codepoint n ;;
  if width =? 1 then
    let value := to_char codepoint in
    ret (yp_encoding_ascii_isupper_char [value] n)
  else
    ret false.

(** Lines 81-88. *)
Definition yp_encoding_gbk : yp_encoding_t := {|
  name := "gbk";
  char_width := yp_encoding_gbk_char_width;
  alnum_char := yp_encoding_gbk_alnum_char;
  alpha_char := yp_encoding_gbk_alpha_char;
  isupper_char := yp_encoding_gbk_isupper_char;
  multibyte := true
|}.

End Handler.

(** ** Running a computation

    [runs m buf k a]: on the buffer [buf] the computation [m] has the value
    [a] and loads only indexes below [k]. *)

Definition runs {A} (m : M A) (buf : list byte) (k : nat) (a : A) : Prop :=
  exists t, m buf = Some (a, t) /\ Forall (fun i => (i < k)%nat) t.

(** The value of the test [(uc[i] >= lo && uc[i] <= hi)] at a byte [x]. *)
Definition inb (lo hi x : Z) : bool := (lo <=? x) && (x <=? hi).

(** The value of lines 19-23 at a lead byte [x] and a trail byte [y]. *)
Definition double_byte (x y : Z) : bool :=
  (inb 0xA1 0xA9 x && inb 0xA1 0xFE y)
  || (inb 0xB0 0xF7 x && inb 0xA1 0xFE y)
  || (inb 0x81 0xA0 x && inb 0x40 0xFE y && negb (y =? 0x7F))
  || (inb 0xAA 0xFE x && inb 0x40 0xA0 y && negb (y =? 0x7F))
  || (inb 0xA8 0xA9 x && inb 0x40 0xA0 y && negb (y =? 0x7F)).

(** The same set of pairs, band by band, as closed intervals. *)
Definition GBK_pair (x y : Z) : Prop :=
  (0xA1 <= x <= 0xA9 /\ 0xA1 <= y <= 0xFE)
  \/ (0xB0 <= x <= 0xF7 /\ 0xA1 <= y <= 0xFE)
  \/ (0x81 <= x <= 0xA0 /\ 0x40 <= y <= 0xFE /\ y <> 0x7F)
  \/ (0xAA <= x <= 0xFE /\ 0x40 <= y <= 0xA0 /\ y <> 0x7F)
  \/ (0xA8 <= x <= 0xA9 /\ 0x40 <= y <= 0xA0 /\ y <> 0x7F).

(** The result of the double-byte branch and of the fall-through. *)
Definition double_or_none (x y : Z) : Z * Z :=
  if double_byte x y then (Z.lor (Z.shiftl x 8) y, 2) else (0, 0).

(** A closed form of the decoder's result on a window of [n >= 1] bytes,
    shown to be what [yp_gbk_codepoint] returns in [runs_decoder]. *)
Definition decoded (n : Z) (buf : list byte) : Z * Z :=
  match buf with
  | [] => (0, 0)
  | b0 :: rest =>
      if uc b0 <? 0x80 then (uc b0, 1)
      else
        match rest with
        | b1 :: _ => if 1 <? n then double_or_none (uc b0) (uc b1) else (0, 0)
        | [] => (0, 0)
        end
  end.

(** The band tests in the order of the source, and their interval parts
    without the [!= 0x7F] conjunct. *)
Definition bands : list (M bool) := [gbk_1; gbk_2; gbk_3; gbk_4; gbk_5].

Definition band_boxes : list (M bool) :=
  [ gbk_1_lead &&& gbk_1_trail;
    gbk_2_lead &&& gbk_2_trail;
    gbk_3_lead &&& gbk_3_trail;
    gbk_4_lead &&& gbk_4_trail;
    gbk_5_lead &&& gbk_5_trail ].

(** A band's interval part is filled when every pair inside it decodes
    to width 2. *)
Definition fills_box (box : M bool) : Prop :=
  forall (n : Z) (b0 b1 : byte) (rest : list byte),
    1 < n ->
    result box (b0 :: b1 :: rest) = Some true ->
    result (yp_encoding_gbk_char_width n) (b0 :: b1 :: rest) = Some 2.

(** A run that returns and loads only indexes below the length [n]. *)
Definition stays_below {A} (m : M A) (buf : list byte) (n : Z) : Prop :=
  exists a t, m buf = Some (a, t) /\ Forall (fun i => Z.of_nat i < n) t.

(** Every index a returning run of [m] loads is below [k], on any
    buffer. *)
Definition loads_below {A} (k : nat) (m : M A) : Prop :=
  forall (buf : list byte) (a : A) (t : list nat),
    m buf = Some (a, t) -> Forall (fun i => (i < k)%nat) t.

(** A returning run of [m] loads at most [c] times, on any buffer. *)
Definition loads_at_most {A} (c : nat) (m : M A) : Prop :=
  forall (buf : list byte) (a : A) (t : list nat),
    m buf = Some (a, t) -> (List.length t <= c)%nat.

(** * Properties *)

(** ** Bytes *)

Lemma uc_range (b : byte) : 0 <= uc b < 256.
Proof.
  unfold uc. pose proof (Byte.to_N_bounded b). lia.
Qed.

Lemma to_char_uc (b : byte) : to_char (uc b) = b.
Proof.
  unfold to_char.
  rewrite Z.mod_small by (change (2 ^ 8) with 256; apply uc_range).
  unfold uc. rewrite N2Z.id, Byte.of_to_N. reflexivity.
Qed.

Lemma land_shifted_byte (x y : Z) :
  0 <= y < 256 -> Z.land (x * 2 ^ 8) y = 0.
Proof.
  intros Hy. apply Z.bits_inj'; intros i Hi.
  rewrite Z.land_spec, Z.bits_0.
  destruct (Z.ltb_spec i 8) as [Hlt|Hge].
  - rewrite Z.mul_pow2_bits_low by lia. reflexivity.
  - assert (Hbit : Z.testbit y i = false).
    { destruct (Z.eq_dec y 0) as [->|Hne]; [apply Z.bits_0|].
      apply Z.bits_above_log2; [lia|].
      apply Z.lt_le_trans with 8; [|assumption].
      apply Z.log2_lt_pow2; [lia|]. change (2 ^ 8) with 256. lia. }
    rewrite Hbit. apply andb_false_r.
Qed.

Lemma shiftl_lor_bytes (x y : Z) :
  0 <= y < 256 -> Z.lor (Z.shiftl x 8) y = x * 256 + y.
Proof.
  intros Hy. rewrite Z.shiftl_mul_pow2 by lia.
  pose proof (land_shifted_byte x y Hy) as Hland.
  rewrite <- Z.lxor_lor by exact Hland.
  rewrite <- Z.add_nocarry_lxor by exact Hland.
  reflexivity.
Qed.

Lemma lead_trail_16 (x y : Z) :
  0 <= x < 256 -> 0 <= y < 256 ->
  yp_gbk_codepoint_t (Z.lor (Z.shiftl x 8) y) = Z.lor (Z.shiftl x 8) y.
Proof.
  intros Hx Hy. unfold yp_gbk_codepoint_t.
  rewrite shiftl_lor_bytes by assumption.
  apply Z.mod_small. change (2 ^ 16) with 65536. lia.
Qed.

Lemma single_16 (x : Z) : 0 <= x < 256 -> yp_gbk_codepoint_t x = x.
Proof.
  intros Hx. unfold yp_gbk_codepoint_t.
  apply Z.mod_small. change (2 ^ 16) with 65536. lia.
Qed.

(** ** Rules for [runs] *)

Section Runs.

Context {A B : Type}.
Variable buf : list byte.
Variable k : nat.

Lemma runs_ret (a : A) : runs (ret a) buf k a.
Proof. exists []. split; [reflexivity|constructor]. Qed.

Lemma runs_bind (m : M A) (f : A -> M B) (a : A) (b : B) :
  runs m buf k a -> runs (f a) buf k b -> runs (bind m f) buf k b.
Proof.
  intros (t1 & E1 & F1) (t2 & E2 & F2).
  exists (t1 ++ t2). split.
  - unfold bind. rewrite E1, E2. reflexivity.
  - apply Forall_app. split; assumption.
Qed.

Lemma runs_result (m : M A) (a : A) :
  runs m buf k a -> result m buf = Some a.
Proof.
  intros (t & E & _). unfold result. rewrite E. reflexivity.
Qed.

Lemma runs_reads (m : M A) (a : A) :
  runs m buf k a ->
  exists t, reads m buf = Some t /\ Forall (fun i => (i < k)%nat) t.
Proof.
  intros (t & E & F). exists t. unfold reads. rewrite E. split; auto.
Qed.

Lemma runs_fun (m : M A) (a a' : A) :
  runs m buf k a -> result m buf = Some a' -> a' = a.
Proof.
  intros R E. rewrite (runs_result _ _ R) in E. congruence.
Qed.

End Runs.

Lemma runs_weaken {A} (m : M A) buf (k k' : nat) (a : A) :
  (k <= k')%nat -> runs m buf k a -> runs m buf k' a.
Proof.
  intros Hk (t & E & F). exists t. split; [assumption|].
  eapply Forall_impl; [|exact F]. simpl. intros; lia.
Qed.

Section RunsExpr.

Variable buf : list byte.
Variable k : nat.

Lemma runs_load (i : nat) (b : byte) :
  nth_error buf i = Some b -> (i < k)%nat -> runs (load i) buf k b.
Proof.
  intros E Hi. exists [i]. split.
  - unfold load. rewrite E. reflexivity.
  - repeat constructor. assumption.
Qed.

Lemma runs_uc_at (i : nat) (b : byte) :
  nth_error buf i = Some b -> (i < k)%nat -> runs (uc_at i) buf k (uc b).
Proof.
  intros E Hi. unfold uc_at.
  eapply runs_bind; [apply runs_load; eassumption|apply runs_ret].
Qed.

Lemma runs_lt_c e x c : runs e buf k x -> runs (lt_c e c) buf k (x <? c).
Proof. intros R. eapply runs_bind; [exact R|apply runs_ret]. Qed.

Lemma runs_ge_c e x c : runs e buf k x -> runs (ge_c e c) buf k (c <=? x).
Proof. intros R. eapply runs_bind; [exact R|apply runs_ret]. Qed.

Lemma runs_le_c e x c : runs e buf k x -> runs (le_c e c) buf k (x <=? c).
Proof. intros R. eapply runs_bind; [exact R|apply runs_ret]. Qed.

Lemma runs_ne_c e x c :
  runs e buf k x -> runs (ne_c e c) buf k (negb (x =? c)).
Proof. intros R. eapply runs_bind; [exact R|apply runs_ret]. Qed.

(** [&&] needs its right operand only when the left one is true, [||]
    only when it is false. *)
Lemma runs_and_c a b (x y : bool) :
  runs a buf k x -> (x = true -> runs b buf k y) ->
  runs (a &&& b) buf k (x && y).
Proof.
  intros Ra Rb. eapply runs_bind; [exact Ra|].
  destruct x; simpl; [apply Rb; reflexivity|apply runs_ret].
Qed.

Lemma runs_or_c a b (x y : bool) :
  runs a buf k x -> (x = false -> runs b buf k y) ->
  runs (a ||| b) buf k (x || y).
Proof.
  intros Ra Rb. eapply runs_bind; [exact Ra|].
  destruct x; simpl; [apply runs_ret|apply Rb; reflexivity].
Qed.

Lemma runs_between (i : nat) (lo hi : Z) (b : byte) :
  nth_error buf i = Some b -> (i < k)%nat ->
  runs (between i lo hi) buf k (inb lo hi (uc b)).
Proof.
  intros E Hi. unfold between, inb.
  apply runs_and_c; [apply runs_ge_c|intros _; apply runs_le_c];
    apply runs_uc_at; assumption.
Qed.

End RunsExpr.

(** On a buffer of at least two bytes every band test has its value and
    loads indexes 0 and 1 only. *)
Section TwoBytes.

Variables b0 b1 : byte.
Variable rest : list byte.

Ltac two_bytes :=
  repeat first
    [ apply runs_between; [reflexivity|lia]
    | apply runs_uc_at; [reflexivity|lia]
    | apply runs_ne_c
    | apply runs_and_c; [|intros _] ].

Lemma runs_box (l0 h0 l1 h1 : Z) :
  runs (between 0 l0 h0 &&& between 1 l1 h1) (b0 :: b1 :: rest) 2
    (inb l0 h0 (uc b0) && inb l1 h1 (uc b1)).
Proof. two_bytes. Qed.

Lemma runs_gbk_1 :
  runs gbk_1 (b0 :: b1 :: rest) 2
    (inb 0xA1 0xA9 (uc b0) && inb 0xA1 0xFE (uc b1)).
Proof. unfold gbk_1, gbk_1_lead, gbk_1_trail. two_bytes. Qed.

Lemma runs_gbk_2 :
  runs gbk_2 (b0 :: b1 :: rest) 2
    (inb 0xB0 0xF7 (uc b0) && inb 0xA1 0xFE (uc b1)).
Proof. unfold gbk_2, gbk_2_lead, gbk_2_trail. two_bytes. Qed.

Lemma runs_gbk_3 :
  runs gbk_3 (b0 :: b1 :: rest) 2
    (inb 0x81 0xA0 (uc b0) && inb 0x40 0xFE (uc b1)
     && negb (uc b1 =? 0x7F)).
Proof. unfold gbk_3, gbk_3_lead, gbk_3_trail. two_bytes. Qed.

Lemma runs_gbk_4 :
  runs gbk_4 (b0 :: b1 :: rest) 2
    (inb 0xAA 0xFE (uc b0) && inb 0x40 0xA0 (uc b1)
     && negb (uc b1 =? 0x7F)).
Proof. unfold gbk_4, gbk_4_lead, gbk_4_trail. two_bytes. Qed.

Lemma runs_gbk_5 :
  runs gbk_5 (b0 :: b1 :: rest) 2
    (inb 0xA8 0xA9 (uc b0) && inb 0x40 0xA0 (uc b1)
     && negb (uc b1 =? 0x7F)).
Proof. unfold gbk_5, gbk_5_lead, gbk_5_trail. two_bytes. Qed.

Lemma runs_bands :
  runs (gbk_1 ||| gbk_2 ||| gbk_3 ||| gbk_4 ||| gbk_5) (b0 :: b1 :: rest) 2
    (double_byte (uc b0) (uc b1)).
Proof.
  unfold double_byte.
  repeat (apply runs_or_c; [|intros _]).
  - apply runs_gbk_1.
  - apply runs_gbk_2.
  - apply runs_gbk_3.
  - apply runs_gbk_4.
  - apply runs_gbk_5.
Qed.

End TwoBytes.

(** ** The decoder, case by case *)

Ltac bool_to_prop :=
  unfold inb in *;
  repeat match goal with
    | H : _ && _ = true |- _ => apply andb_true_iff in H; destruct H
    | H : _ || _ = true |- _ => apply orb_true_iff in H; destruct H
    | H : negb _ = true |- _ => apply negb_true_iff in H
    | H : (_ <=? _) = true |- _ => apply Z.leb_le in H
    | H : (_ <? _) = true |- _ => apply Z.ltb_lt in H
    | H : (_ =? _) = false |- _ => apply Z.eqb_neq in H
    end.

Lemma double_byte_iff (x y : Z) : double_byte x y = true <-> GBK_pair x y.
Proof.
  unfold double_byte, GBK_pair. split.
  - intros H. bool_to_prop; lia.
  - intros H. unfold inb.
    repeat rewrite orb_true_iff. repeat rewrite andb_true_iff.
    rewrite negb_true_iff, Z.eqb_neq. repeat rewrite Z.leb_le. lia.
Qed.

Lemma double_byte_false_iff (x y : Z) :
  double_byte x y = false <-> ~ GBK_pair x y.
Proof.
  rewrite <- double_byte_iff. destruct (double_byte x y); split; congruence.
Qed.

(** Every accepted lead byte is outside the single-byte range. *)
Lemma GBK_pair_lead (x y : Z) : GBK_pair x y -> 0x81 <= x <= 0xFE.
Proof. unfold GBK_pair. lia. Qed.

Section Decoder.

Variable n : Z.
Variable b0 : byte.
Variable rest : list byte.

Lemma runs_single :
  uc b0 < 0x80 -> runs (yp_gbk_codepoint n) (b0 :: rest) 1 (uc b0, 1).
Proof.
  intros Hlt. unfold yp_gbk_codepoint.
  eapply runs_bind.
  - apply runs_lt_c, runs_uc_at; [reflexivity|lia].
  - apply Z.ltb_lt in Hlt. rewrite Hlt.
    eapply runs_bind; [apply runs_uc_at; [reflexivity|lia]|].
    rewrite single_16 by apply uc_range. apply runs_ret.
Qed.

Lemma runs_short :
  0x80 <= uc b0 -> n <= 1 ->
  runs (yp_gbk_codepoint n) (b0 :: rest) 1 (0, 0).
Proof.
  intros Hge Hn. unfold yp_gbk_codepoint.
  eapply runs_bind.
  - apply runs_lt_c, runs_uc_at; [reflexivity|lia].
  - apply Z.ltb_ge in Hge. rewrite Hge.
    eapply runs_bind.
    + apply runs_and_c with (y := false); [apply runs_ret|].
      intros Hg. apply Z.ltb_lt in Hg. lia.
    + rewrite andb_false_r. apply runs_ret.
Qed.

End Decoder.

Lemma runs_double (n : Z) (b0 b1 : byte) (rest : list byte) :
  0x80 <= uc b0 -> 1 < n ->
  runs (yp_gbk_codepoint n) (b0 :: b1 :: rest) 2
    (double_or_none (uc b0) (uc b1)).
Proof.
  intros Hge Hn. unfold yp_gbk_codepoint.
  eapply runs_bind.
  - apply runs_lt_c, runs_uc_at; [reflexivity|lia].
  - apply Z.ltb_ge in Hge. rewrite Hge.
    eapply runs_bind.
    + apply runs_and_c; [apply runs_ret|intros _; apply runs_bands].
    + apply Z.ltb_lt in Hn. rewrite Hn. simpl andb.
      unfold double_or_none.
      destruct (double_byte (uc b0) (uc b1)); [|apply runs_ret].
      eapply runs_bind; [apply runs_uc_at; [reflexivity|lia]|].
      eapply runs_bind; [apply runs_uc_at; [reflexivity|lia]|].
      rewrite lead_trail_16 by apply uc_range. apply runs_ret.
Qed.

(** On a window of [n >= 1] bytes inside the buffer the decoder returns,
    and loads below [n]. *)
Lemma runs_decoder (n : Z) (buf : list byte) :
  1 <= n <= Z.of_nat (List.length buf) ->
  runs (yp_gbk_codepoint n) buf (Z.to_nat (Z.min n 2)) (decoded n buf).
Proof.
  intros [Hn Hlen]. destruct buf as [|b0 rest]; [simpl in Hlen; lia|].
  unfold decoded.
  destruct (Z.ltb_spec (uc b0) 0x80) as [Hlt|Hge].
  - apply runs_weaken with 1%nat; [lia|]. apply runs_single; assumption.
  - destruct (Z.ltb_spec 1 n) as [Hn1|Hn1].
    + destruct rest as [|b1 rest]; [simpl in Hlen; lia|].
      apply runs_weaken with 2%nat; [lia|]. apply runs_double; assumption.
    + apply runs_weaken with 1%nat; [lia|].
      replace (match rest with [] => (0, 0) | _ :: _ => (0, 0) end)
        with (0, 0) by (destruct rest; reflexivity).
      apply runs_short; assumption.
Qed.

(** ** Values and loads under [bind] *)

Lemma result_bind {A B} (m : M A) (f : A -> M B) (buf : list byte) :
  result (bind m f) buf =
  match result m buf with
  | Some a => result (f a) buf
  | None => None
  end.
Proof.
  unfold result, bind.
  destruct (m buf) as [[a t1]|]; [simpl|reflexivity].
  destruct (f a buf) as [[b t2]|]; reflexivity.
Qed.

Lemma result_char_width (n : Z) (buf : list byte) :
  result (yp_encoding_gbk_char_width n) buf =
  option_map snd (result (yp_gbk_codepoint n) buf).
Proof.
  unfold yp_encoding_gbk_char_width. rewrite result_bind.
  destruct (result (yp_gbk_codepoint n) buf) as [[cp w]|]; reflexivity.
Qed.

Lemma runs_char_width (n : Z) (buf : list byte) (k : nat) (r : Z * Z) :
  runs (yp_gbk_codepoint n) buf k r ->
  runs (yp_encoding_gbk_char_width n) buf k (snd r).
Proof.
  intros R. unfold yp_encoding_gbk_char_width.
  eapply runs_bind; [exact R|]. destruct r. apply runs_ret.
Qed.

(** * The decoder's three outcomes *)

(** C1: a window of more than one byte whose first two bytes lie in one
    of the five bands, the trail byte not being the reserved [0x7F],
    decodes to width 2 and codepoint [b0 << 8 | b1]; [0xA1 0xA1] with
    [n = 2] decodes to width 2 and [0xA1A1]. *)
Theorem C1_band_pair_decodes_to_width_2 :
  (forall (n : Z) (b0 b1 : byte) (rest : list byte),
      1 < n ->
      (0xA1 <= uc b0 <= 0xA9 /\ 0xA1 <= uc b1 <= 0xFE)
      \/ (0xB0 <= uc b0 <= 0xF7 /\ 0xA1 <= uc b1 <= 0xFE)
      \/ (0x81 <= uc b0 <= 0xA0 /\ 0x40 <= uc b1 <= 0xFE /\ uc b1 <> 0x7F)
      \/ (0xAA <= uc b0 <= 0xFE /\ 0x40 <= uc b1 <= 0xA0 /\ uc b1 <> 0x7F)
      \/ (0xA8 <= uc b0 <= 0xA9 /\ 0x40 <= uc b1 <= 0xA0 /\ uc b1 <> 0x7F) ->
      result (yp_gbk_codepoint n) (b0 :: b1 :: rest)
      = Some (Z.lor (Z.shiftl (uc b0) 8) (uc b1), 2))
  /\ result (yp_gbk_codepoint 2) [xa1; xa1] = Some (0xA1A1, 2)
  /\ result (yp_encoding_gbk_char_width 2) [xa1; xa1] = Some 2.
Proof.
  split; [|split; reflexivity].
  intros n b0 b1 rest Hn Hpair.
  assert (Hlead : 0x80 <= uc b0) by lia.
  rewrite (runs_result _ _ _ _ (runs_double n b0 b1 rest Hlead Hn)).
  unfold double_or_none.
  apply (proj2 (double_byte_iff (uc b0) (uc b1))) in Hpair.
  rewrite Hpair. reflexivity.
Qed.

Lemma C1_band_pair_decodes_to_width_2_witness :
  1 < 2
  /\ (0xB0 <= uc xb0 <= 0xF7 /\ 0xA1 <= uc xa1 <= 0xFE)
  /\ result (yp_gbk_codepoint 2) [xb0; xa1] = Some (0xB0A1, 2).
Proof.
  split; [lia|]. split; [vm_compute; intuition discriminate|].
  apply (proj1 C1_band_pair_decodes_to_width_2 2 xb0 xa1 []); [lia|].
  right; left. vm_compute. intuition discriminate.
Defined.

(** C2: a window of at least one byte whose first byte is below [0x80]
    decodes to width 1 and to that byte, whatever follows it. *)
Theorem C2_single_byte_identity :
  forall (n : Z) (b : byte) (rest : list byte),
    1 <= n ->
    uc b < 0x80 ->
    result (yp_gbk_codepoint n) (b :: rest) = Some (uc b, 1)
    /\ result (yp_encoding_gbk_char_width n) (b :: rest) = Some 1.
Proof.
  intros n b rest _ Hlt.
  pose proof (runs_single n b rest Hlt) as R.
  split.
  - exact (runs_result _ _ _ _ R).
  - exact (runs_result _ _ _ _ (runs_char_width _ _ _ _ R)).
Qed.

Lemma C2_single_byte_identity_witness :
  1 <= 3
  /\ uc x41 < 0x80
  /\ result (yp_gbk_codepoint 3) [x41; xb0; xa1] = Some (0x41, 1)
  /\ result (yp_encoding_gbk_char_width 3) [x41; xb0; xa1] = Some 1.
Proof.
  split; [lia|]. split; [reflexivity|].
  apply (C2_single_byte_identity 3 x41 [xb0; xa1]); [lia|reflexivity].
Defined.

(** C3: the decoder returns width 0 and codepoint 0 exactly when the
    first byte is at least [0x80] and no double-byte match exists: at
    [n = 1] for every such first byte, and at [n > 1] when the pair is in
    no band, as for [0x81 0x7F]; on every window of [n >= 1] bytes it
    returns, with a width among 0, 1, 2 and codepoint 0 at width 0. *)
Theorem C3_width_0_exactly_when_no_match :
  (forall (b0 : byte) (rest : list byte),
      result (yp_gbk_codepoint 1) (b0 :: rest) = Some (0, 0)
      <-> 0x80 <= uc b0)
  /\ (forall (n : Z) (b0 b1 : byte) (rest : list byte),
         1 < n ->
         (result (yp_gbk_codepoint n) (b0 :: b1 :: rest) = Some (0, 0)
          <-> 0x80 <= uc b0 /\ ~ GBK_pair (uc b0) (uc b1)))
  /\ (forall (n : Z) (buf : list byte),
         1 <= n <= Z.of_nat (List.length buf) ->
         exists cp w,
           result (yp_gbk_codepoint n) buf = Some (cp, w)
           /\ result (yp_encoding_gbk_char_width n) buf = Some w
           /\ (w = 0 \/ w = 1 \/ w = 2)
           /\ (w = 0 -> cp = 0))
  /\ (forall (b0 : byte) (rest : list byte),
         0x80 <= uc b0 ->
         result (yp_encoding_gbk_char_width 1) (b0 :: rest) = Some 0)
  /\ (forall (n : Z) (rest : list byte),
         1 < n ->
         result (yp_encoding_gbk_char_width n) (x81 :: x7f :: rest) = Some 0
         /\ 0x81 <= uc x81 <= 0xA0 /\ 0x40 <= uc x7f <= 0xFE).
Proof.
  repeat apply conj.
  - intros b0 rest. destruct (Z.ltb_spec (uc b0) 0x80) as [Hlt|Hge].
    + rewrite (runs_result _ _ _ _ (runs_single 1 b0 rest Hlt)).
      split; [intros E; inversion E|lia].
    + rewrite (runs_result _ _ _ _ (runs_short 1 b0 rest Hge (Z.le_refl 1))).
      split; [intros _; assumption|reflexivity].
  - intros n b0 b1 rest Hn.
    destruct (Z.ltb_spec (uc b0) 0x80) as [Hlt|Hge].
    + rewrite (runs_result _ _ _ _ (runs_single n b0 (b1 :: rest) Hlt)).
      split; [intros E; inversion E|lia].
    + rewrite (runs_result _ _ _ _ (runs_double n b0 b1 rest Hge Hn)).
      unfold double_or_none. rewrite <- double_byte_false_iff.
      destruct (double_byte (uc b0) (uc b1)).
      * split; [intros E; inversion E|intros [_ E]; discriminate].
      * split; [intros _; split; [assumption|reflexivity]|reflexivity].
  - intros n buf Hn.
    pose proof (runs_decoder n buf Hn) as R.
    exists (fst (decoded n buf)), (snd (decoded n buf)).
    rewrite <- surjective_pairing.
    split; [exact (runs_result _ _ _ _ R)|].
    split; [exact (runs_result _ _ _ _ (runs_char_width _ _ _ _ R))|].
    unfold decoded, double_or_none.
    destruct buf as [|b0 [|b1 rest]];
      repeat match goal with
        | |- context [if ?c then _ else _] => destruct c
        end; simpl; auto.
    all: split; [auto|]; intros; discriminate.
  - intros b0 rest Hge.
    exact (runs_result _ _ _ _
             (runs_char_width _ _ _ _
                (runs_short 1 b0 rest Hge (Z.le_refl 1)))).
  - intros n rest Hn. split; [|vm_compute; intuition discriminate].
    assert (Hge : 0x80 <= uc x81) by (vm_compute; discriminate).
    exact (runs_result _ _ _ _
             (runs_char_width _ _ _ _ (runs_double n x81 x7f rest Hge Hn))).
Qed.

Lemma C3_width_0_exactly_when_no_match_witness :
  (1 < 2
   /\ (result (yp_gbk_codepoint 2) [xa0; x30] = Some (0, 0)
       <-> 0x80 <= uc xa0 /\ ~ GBK_pair (uc xa0) (uc x30)))
  /\ (1 <= 2 <= Z.of_nat (List.length [x81; x7f])
      /\ exists cp w,
          result (yp_gbk_codepoint 2) [x81; x7f] = Some (cp, w)
          /\ result (yp_encoding_gbk_char_width 2) [x81; x7f] = Some w
          /\ (w = 0 \/ w = 1 \/ w = 2)
          /\ (w = 0 -> cp = 0))
  /\ (0x80 <= uc xff
      /\ result (yp_encoding_gbk_char_width 1) [xff] = Some 0)
  /\ (1 < 3
      /\ result (yp_encoding_gbk_char_width 3) [x81; x7f; x41] = Some 0
      /\ 0x81 <= uc x81 <= 0xA0 /\ 0x40 <= uc x7f <= 0xFE).
Proof.
  destruct C3_width_0_exactly_when_no_match as (_ & H2 & H3 & H4 & H5).
  split; [|split; [|split]].
  - split; [lia|]. apply (H2 2 xa0 x30 []). lia.
  - split; [simpl; lia|]. apply (H3 2 [x81; x7f]). simpl. lia.
  - split; [vm_compute; discriminate|].
    apply (H4 xff []). vm_compute. discriminate.
  - split; [lia|]. apply (H5 3 [x41]). lia.
Defined.

(** * The reserved trail value *)

Lemma box_value (k : nat) (box : M bool) (b0 b1 : byte) (rest : list byte) :
  nth_error band_boxes k = Some box ->
  exists l0 h0 l1 h1 : Z,
    nth_error
      [(0xA1, 0xA9, 0xA1, 0xFE); (0xB0, 0xF7, 0xA1, 0xFE);
       (0x81, 0xA0, 0x40, 0xFE); (0xAA, 0xFE, 0x40, 0xA0);
       (0xA8, 0xA9, 0x40, 0xA0)] k = Some (l0, h0, l1, h1)
    /\ result box (b0 :: b1 :: rest)
       = Some (inb l0 h0 (uc b0) && inb l1 h1 (uc b1)).
Proof.
  intros E.
  do 5 (destruct k as [|k];
        [injection E as <-; do 4 eexists; split; [reflexivity|];
         exact (runs_result _ _ _ _ (runs_box b0 b1 rest _ _ _ _))|]).
  destruct k; discriminate.
Qed.

Lemma width_2_of_pair (n : Z) (b0 b1 : byte) (rest : list byte) :
  1 < n -> GBK_pair (uc b0) (uc b1) ->
  result (yp_encoding_gbk_char_width n) (b0 :: b1 :: rest) = Some 2.
Proof.
  intros Hn Hp.
  assert (Hge : 0x80 <= uc b0) by (apply GBK_pair_lead in Hp; lia).
  rewrite (runs_result _ _ _ _
             (runs_char_width _ _ _ _ (runs_double n b0 b1 rest Hge Hn))).
  unfold double_or_none.
  apply double_byte_iff in Hp. rewrite Hp. reflexivity.
Qed.

Lemma width_0_of_trail_7F (n : Z) (b0 : byte) (rest : list byte) :
  1 < n -> 0x80 <= uc b0 ->
  result (yp_encoding_gbk_char_width n) (b0 :: x7f :: rest) = Some 0.
Proof.
  intros Hn Hge.
  rewrite (runs_result _ _ _ _
             (runs_char_width _ _ _ _ (runs_double n b0 x7f rest Hge Hn))).
  unfold double_or_none.
  replace (double_byte (uc b0) (uc x7f)) with false; [reflexivity|].
  symmetry. apply double_byte_false_iff. unfold GBK_pair.
  change (uc x7f) with 0x7F. lia.
Qed.

(** C4, against the claim: the interval parts of GBK/3, GBK/4 and GBK/5
    all hold at trail [0x7F] (leads [0x81], [0xAA], [0xA8], [n = 2]) and
    the width is 0 there, so no choice of one band leaves four bands that
    accept their whole trail interval. *)
Lemma C4_counterexample_three_bands_have_the_hole :
  (result (gbk_3_lead &&& gbk_3_trail) [x81; x7f] = Some true
   /\ result (yp_encoding_gbk_char_width 2) [x81; x7f] = Some 0)
  /\ (result (gbk_4_lead &&& gbk_4_trail) [xaa; x7f] = Some true
      /\ result (yp_encoding_gbk_char_width 2) [xaa; x7f] = Some 0)
  /\ (result (gbk_5_lead &&& gbk_5_trail) [xa8; x7f] = Some true
      /\ result (yp_encoding_gbk_char_width 2) [xa8; x7f] = Some 0)
  /\ ~ (exists k : nat,
          forall (j : nat) (box : M bool),
            j <> k -> nth_error band_boxes j = Some box -> fills_box box).
Proof.
  repeat apply conj; try reflexivity.
  intros [k H].
  destruct (Nat.eq_dec k 3) as [->|Hk].
  - specialize (H 4%nat _ ltac:(lia) eq_refl 2 xa8 x7f [] ltac:(lia) eq_refl).
    discriminate H.
  - specialize (H 3%nat _ ltac:(lia) eq_refl 2 xaa x7f [] ltac:(lia) eq_refl).
    discriminate H.
Qed.

(** C4, as the code has it: GBK/1 and GBK/2 accept every trail byte of
    their interval; GBK/3, GBK/4 and GBK/5 each leave out the trail
    [0x7F], which lies inside their trail interval, and nothing else:
    at [0x7F] the width is 0 for every lead byte of those three bands, and
    every other pair inside any band's intervals decodes to width 2. *)
Theorem C4_hole_in_bands_3_4_5_only :
  (fills_box (gbk_1_lead &&& gbk_1_trail)
   /\ fills_box (gbk_2_lead &&& gbk_2_trail)
   /\ ~ fills_box (gbk_3_lead &&& gbk_3_trail)
   /\ ~ fills_box (gbk_4_lead &&& gbk_4_trail)
   /\ ~ fills_box (gbk_5_lead &&& gbk_5_trail))
  /\ (forall (n : Z) (b0 : byte) (rest : list byte),
         1 < n ->
         0x81 <= uc b0 <= 0xA0 \/ 0xAA <= uc b0 <= 0xFE
         \/ 0xA8 <= uc b0 <= 0xA9 ->
         result (yp_encoding_gbk_char_width n) (b0 :: x7f :: rest) = Some 0)
  /\ (forall (k : nat) (box : M bool) (n : Z) (b0 b1 : byte)
             (rest : list byte),
         nth_error band_boxes k = Some box ->
         1 < n ->
         result box (b0 :: b1 :: rest) = Some true ->
         uc b1 <> 0x7F ->
         result (yp_encoding_gbk_char_width n) (b0 :: b1 :: rest) = Some 2).
Proof.
  assert (Hfill : forall (k : nat) (box : M bool) (n : Z) (b0 b1 : byte)
                         (rest : list byte),
             nth_error band_boxes k = Some box ->
             1 < n ->
             result box (b0 :: b1 :: rest) = Some true ->
             uc b1 <> 0x7F \/ (k < 2)%nat ->
             result (yp_encoding_gbk_char_width n) (b0 :: b1 :: rest)
             = Some 2).
  { intros k box n b0 b1 rest Ek Hn Hbox Hne.
    destruct (box_value k box b0 b1 rest Ek) as (l0 & h0 & l1 & h1 & Et & Ev).
    rewrite Ev in Hbox. injection Hbox as Hbox.
    apply width_2_of_pair; [assumption|]. unfold GBK_pair.
    do 5 (destruct k as [|k];
          [injection Et as <- <- <- <-; bool_to_prop; lia|]).
    destruct k; discriminate. }
  split; [|split].
  - repeat apply conj.
    + intros n b0 b1 rest Hn Hb.
      apply (Hfill 0%nat _ n b0 b1 rest eq_refl Hn Hb). right; lia.
    + intros n b0 b1 rest Hn Hb.
      apply (Hfill 1%nat _ n b0 b1 rest eq_refl Hn Hb). right; lia.
    + intros H.
      specialize (H 2 x81 x7f [] ltac:(lia) eq_refl). discriminate H.
    + intros H.
      specialize (H 2 xaa x7f [] ltac:(lia) eq_refl). discriminate H.
    + intros H.
      specialize (H 2 xa8 x7f [] ltac:(lia) eq_refl). discriminate H.
  - intros n b0 rest Hn Hlead.
    apply width_0_of_trail_7F; [assumption|lia].
  - intros k box n b0 b1 rest Ek Hn Hbox Hne.
    apply (Hfill k box n b0 b1 rest Ek Hn Hbox). left; assumption.
Qed.

Lemma C4_hole_in_bands_3_4_5_only_witness :
  (1 < 2 /\ 0xAA <= uc xfe <= 0xFE
   /\ result (yp_encoding_gbk_char_width 2) [xfe; x7f] = Some 0)
  /\ (nth_error band_boxes 3 = Some (gbk_4_lead &&& gbk_4_trail)
      /\ result (gbk_4_lead &&& gbk_4_trail) [xfe; x80] = Some true
      /\ uc x80 <> 0x7F
      /\ result (yp_encoding_gbk_char_width 2) [xfe; x80] = Some 2).
Proof.
  split.
  - split; [lia|]. split; [vm_compute; intuition discriminate|].
    apply (proj1 (proj2 C4_hole_in_bands_3_4_5_only) 2 xfe []); [lia|].
    right; left. vm_compute. intuition discriminate.
  - split; [reflexivity|]. split; [reflexivity|].
    split; [vm_compute; discriminate|].
    apply (proj2 (proj2 C4_hole_in_bands_3_4_5_only) 3%nat
             (gbk_4_lead &&& gbk_4_trail) 2 xfe x80 []);
      [reflexivity|lia|reflexivity|vm_compute; discriminate].
Defined.

(** * Loads stay inside the window *)

Lemma below_min (n : Z) (t : list nat) :
  Forall (fun i => (i < Z.to_nat (Z.min n 2))%nat) t ->
  Forall (fun i => Z.of_nat i < n) t.
Proof.
  intros F. eapply Forall_impl; [|exact F]. simpl. intros i Hi. lia.
Qed.

Lemma runs_stays_below {A} (m : M A) (buf : list byte) (n : Z) (a : A) :
  runs m buf (Z.to_nat (Z.min n 2)) a -> stays_below m buf n.
Proof.
  intros (t & E & F). exists a, t. split; [exact E|]. apply below_min, F.
Qed.

(** The first byte is loaded before anything else, whatever [n] is. *)
Lemma first_load (n : Z) (buf : list byte) (r : Z * Z) (t : list nat) :
  yp_gbk_codepoint n buf = Some (r, t) -> exists t', t = 0%nat :: t'.
Proof.
  unfold yp_gbk_codepoint, lt_c, uc_at, bind at 1 2 3, load.
  destruct buf as [|b0 rest]; simpl nth_error; cbv iota; [discriminate|].
  unfold ret at 1 2.
  match goal with
  | |- context [match ?e with Some _ => _ | None => _ end] =>
      destruct e as [[r' t']|]
  end; [|discriminate].
  intros E. injection E as _ <-. simpl. eauto.
Qed.

(** Index 1 is loaded only under the guard [n > 1]. *)
Lemma second_load_guarded (n : Z) (buf : list byte) (r : Z * Z)
      (t : list nat) :
  yp_gbk_codepoint n buf = Some (r, t) -> In 1%nat t -> 1 < n.
Proof.
  intros E Hin.
  destruct (Z.ltb_spec 1 n) as [Hn|Hn]; [assumption|exfalso].
  destruct buf as [|b0 rest].
  - destruct (first_load n [] r t E) as [t' ->].
    unfold yp_gbk_codepoint, lt_c, uc_at, bind at 1 2 3, load in E.
    simpl in E. discriminate E.
  - assert (R : exists r', runs (yp_gbk_codepoint n) (b0 :: rest) 1 r').
    { destruct (Z.ltb_spec (uc b0) 0x80).
      - eexists. apply runs_single. assumption.
      - eexists. apply runs_short; assumption. }
    destruct R as (r' & t' & E' & F). rewrite E in E'. injection E' as _ <-.
    rewrite Forall_forall in F. specialize (F _ Hin). lia.
Qed.

Section Queries.

Variable ascii_alpha ascii_alnum : list byte -> Z -> Z.
Variable ascii_isupper : list byte -> Z -> bool.

Variable n : Z.
Variable buf : list byte.

Lemma runs_alpha_char (k : nat) (r : Z * Z) :
  runs (yp_gbk_codepoint n) buf k r ->
  runs (yp_encoding_gbk_alpha_char ascii_alpha n) buf k
    (if snd r =? 1 then ascii_alpha [to_char (fst r)] n else 0).
Proof.
  intros R. unfold yp_encoding_gbk_alpha_char.
  eapply runs_bind; [exact R|].
  destruct r as [cp w]; simpl. destruct (w =? 1); apply runs_ret.
Qed.

Lemma runs_alnum_char (k : nat) (r : Z * Z) :
  runs (yp_gbk_codepoint n) buf k r ->
  runs (yp_encoding_gbk_alnum_char ascii_alnum n) buf k
    (if snd r =? 1 then ascii_alnum [to_char (fst r)] n else 0).
Proof.
  intros R. unfold yp_encoding_gbk_alnum_char.
  eapply runs_bind; [exact R|].
  destruct r as [cp w]; simpl. destruct (w =? 1); apply runs_ret.
Qed.

Lemma runs_isupper_char (k : nat) (r : Z * Z) :
  runs (yp_gbk_codepoint n) buf k r ->
  runs (yp_encoding_gbk_isupper_char ascii_isupper n) buf k
    (if snd r =? 1 then ascii_isupper [to_char (fst r)] n else false).
Proof.
  intros R. unfold yp_encoding_gbk_isupper_char.
  eapply runs_bind; [exact R|].
  destruct r as [cp w]; simpl. destruct (w =? 1); apply runs_ret.
Qed.

Lemma result_alpha_char :
  result (yp_encoding_gbk_alpha_char ascii_alpha n) buf =
  match result (yp_gbk_codepoint n) buf with
  | Some (cp, w) =>
      Some (if w =? 1 then ascii_alpha [to_char cp] n else 0)
  | None => None
  end.
Proof.
  unfold yp_encoding_gbk_alpha_char. rewrite result_bind.
  destruct (result (yp_gbk_codepoint n) buf) as [[cp w]|]; [|reflexivity].
  destruct (w =? 1); reflexivity.
Qed.

Lemma result_alnum_char :
  result (yp_encoding_gbk_alnum_char ascii_alnum n) buf =
  match result (yp_gbk_codepoint n) buf with
  | Some (cp, w) =>
      Some (if w =? 1 then ascii_alnum [to_char cp] n else 0)
  | None => None
  end.
Proof.
  unfold yp_encoding_gbk_alnum_char. rewrite result_bind.
  destruct (result (yp_gbk_codepoint n) buf) as [[cp w]|]; [|reflexivity].
  destruct (w =? 1); reflexivity.
Qed.

Lemma result_isupper_char :
  result (yp_encoding_gbk_isupper_char ascii_isupper n) buf =
  match result (yp_gbk_codepoint n) buf with
  | Some (cp, w) =>
      Some (if w =? 1 then ascii_isupper [to_char cp] n else false)
  | None => None
  end.
Proof.
  unfold yp_encoding_gbk_isupper_char. rewrite result_bind.
  destruct (result (yp_gbk_codepoint n) buf) as [[cp w]|]; [|reflexivity].
  destruct (w =? 1); reflexivity.
Qed.

End Queries.

(** C5, against the claim: at [n = 0] the first byte is loaded all the
    same, index 0 not being below 0; on a buffer of no bytes that load has
    no result, for the decoder and for [char_width] alike. *)
Lemma C5_counterexample_first_byte_loaded_at_n_0 :
  reads (yp_gbk_codepoint 0) [x41] = Some [0%nat; 0%nat]
  /\ ~ stays_below (yp_gbk_codepoint 0) [x41] 0
  /\ yp_gbk_codepoint 0 [] = None
  /\ yp_encoding_gbk_char_width 0 [] = None.
Proof.
  split; [reflexivity|]. split; [|split; reflexivity].
  intros (a & t & E & F).
  vm_compute in E. injection E as _ <-.
  inversion F as [|i l Hi _]. simpl in Hi. lia.
Qed.

(** C5, as the code has it: on every window of [n >= 1] bytes inside the
    buffer the decoder and the four queries return, and every index they
    load is below [n]; whatever [n] and the buffer are, a run of the
    decoder that returns has loaded index 0 first, and index 1 only when
    [n > 1]. *)
Theorem C5_loads_below_n_from_n_1 :
  forall (ascii_alpha ascii_alnum : list byte -> Z -> Z)
         (ascii_isupper : list byte -> Z -> bool),
    (forall (n : Z) (buf : list byte),
        1 <= n <= Z.of_nat (List.length buf) ->
        stays_below (yp_gbk_codepoint n) buf n
        /\ stays_below (yp_encoding_gbk_char_width n) buf n
        /\ stays_below (yp_encoding_gbk_alpha_char ascii_alpha n) buf n
        /\ stays_below (yp_encoding_gbk_alnum_char ascii_alnum n) buf n
        /\ stays_below (yp_encoding_gbk_isupper_char ascii_isupper n) buf n)
    /\ (forall (n : Z) (buf : list byte) (r : Z * Z) (t : list nat),
           yp_gbk_codepoint n buf = Some (r, t) ->
           (exists t', t = 0%nat :: t') /\ (In 1%nat t -> 1 < n)).
Proof.
  intros ascii_alpha ascii_alnum ascii_isupper. split.
  - intros n buf Hn. pose proof (runs_decoder n buf Hn) as R.
    repeat apply conj; eapply runs_stays_below.
    + exact R.
    + apply runs_char_width, R.
    + apply runs_alpha_char, R.
    + apply runs_alnum_char, R.
    + apply runs_isupper_char, R.
  - intros n buf r t E. split.
    + exact (first_load n buf r t E).
    + exact (second_load_guarded n buf r t E).
Qed.

Lemma C5_loads_below_n_from_n_1_witness :
  let yes := fun (_ : list byte) (_ : Z) => 1 in
  let up := fun (_ : list byte) (_ : Z) => true in
  (1 <= 1 <= Z.of_nat (List.length [xb0])
   /\ stays_below (yp_gbk_codepoint 1) [xb0] 1
   /\ stays_below (yp_encoding_gbk_char_width 1) [xb0] 1
   /\ stays_below (yp_encoding_gbk_alpha_char yes 1) [xb0] 1
   /\ stays_below (yp_encoding_gbk_alnum_char yes 1) [xb0] 1
   /\ stays_below (yp_encoding_gbk_isupper_char up 1) [xb0] 1)
  /\ (yp_gbk_codepoint 1 [xb0; xa1] = Some ((0, 0), [0%nat])
      /\ (exists t', [0%nat] = 0%nat :: t')
      /\ (In 1%nat [0%nat] -> 1 < 1)).
Proof.
  intros yes up.
  destruct (C5_loads_below_n_from_n_1 yes yes up) as (H1 & H2).
  split.
  - split; [simpl; lia|]. apply (H1 1 [xb0]). simpl. lia.
  - split; [reflexivity|].
    apply (H2 1 [xb0; xa1] (0, 0) [0%nat]). reflexivity.
Defined.

(** * Widths *)

Lemma result_guard (b : bool) (m : M bool) (buf : list byte) :
  result (ret b &&& m) buf = if b then result m buf else Some false.
Proof.
  unfold and_c. rewrite result_bind. destruct b; reflexivity.
Qed.

(** The three outcomes of a run that returns, on any buffer. *)
Lemma decoder_width (n : Z) (buf : list byte) (cp w : Z) :
  result (yp_gbk_codepoint n) buf = Some (cp, w) ->
  (w = 1 /\ exists b0 rest, buf = b0 :: rest /\ uc b0 < 0x80 /\ cp = uc b0)
  \/ (w = 2 /\ 1 < n)
  \/ (w = 0 /\ cp = 0).
Proof.
  destruct buf as [|b0 rest]; [discriminate|].
  destruct (Z.ltb_spec (uc b0) 0x80) as [Hlt|Hge].
  - rewrite (runs_result _ _ _ _ (runs_single n b0 rest Hlt)).
    intros E; injection E as <- <-. left. eauto 10.
  - unfold yp_gbk_codepoint. rewrite result_bind.
    assert (R0 : runs (uc_at 0) (b0 :: rest) 1 (uc b0))
      by (apply runs_uc_at; [reflexivity|lia]).
    rewrite (runs_result _ _ _ _ (runs_lt_c _ _ _ _ 0x80 R0)).
    apply Z.ltb_ge in Hge. rewrite Hge.
    rewrite result_bind, result_guard.
    destruct (Z.ltb_spec 1 n) as [Hn|Hn].
    + destruct (result _ (b0 :: rest)) as [[|]|]; [| |discriminate].
      * do 2 (rewrite result_bind;
              destruct (result (uc_at _) (b0 :: rest)); [|discriminate]).
        intros E; injection E as _ <-. right; left. auto.
      * intros E; injection E as <- <-. right; right. auto.
    + intros E; injection E as <- <-. right; right. auto.
Qed.

(** C9: on a window of [n >= 1] bytes [char_width] returns a width between
    0 and [n]; on any buffer a returned width is 0, 1 or 2, and 2 only
    when [n > 1]. *)
Theorem C9_width_never_exceeds_n :
  (forall (n : Z) (buf : list byte),
      1 <= n <= Z.of_nat (List.length buf) ->
      exists w,
        result (yp_encoding_gbk_char_width n) buf = Some w /\ 0 <= w <= n)
  /\ (forall (n : Z) (buf : list byte) (w : Z),
         result (yp_encoding_gbk_char_width n) buf = Some w ->
         (w = 0 \/ w = 1 \/ w = 2) /\ (w = 2 -> 1 < n)).
Proof.
  assert (Hany : forall n buf w,
             result (yp_encoding_gbk_char_width n) buf = Some w ->
             (w = 0 \/ w = 1 \/ w = 2) /\ (w = 2 -> 1 < n)).
  { intros n buf w E. rewrite result_char_width in E.
    destruct (result (yp_gbk_codepoint n) buf) as [[cp w']|] eqn:Ed;
      [|discriminate].
    simpl in E. injection E as ->.
    apply decoder_width in Ed. lia. }
  split; [|exact Hany].
  intros n buf Hn.
  pose proof (runs_result _ _ _ _
                (runs_char_width _ _ _ _ (runs_decoder n buf Hn))) as E.
  eexists. split; [exact E|].
  apply Hany in E. lia.
Qed.

Lemma C9_width_never_exceeds_n_witness :
  (1 <= 1 <= Z.of_nat (List.length [xb0; xa1])
   /\ exists w,
       result (yp_encoding_gbk_char_width 1) [xb0; xa1] = Some w
       /\ 0 <= w <= 1)
  /\ (result (yp_encoding_gbk_char_width 2) [xb0; xa1] = Some 2
      /\ (2 = 0 \/ 2 = 1 \/ 2 = 2) /\ (2 = 2 -> 1 < 2)).
Proof.
  destruct C9_width_never_exceeds_n as (H1 & H2).
  split.
  - split; [simpl; lia|]. apply (H1 1 [xb0; xa1]). simpl. lia.
  - split; [reflexivity|]. apply (H2 2 [xb0; xa1] 2). reflexivity.
Defined.

(** * Delegation to the single-byte classifiers *)

(** C6, against the claim: on [0x41 0x42] with [n = 2] the decoder yields
    width 1, and a classifier that answers with the length it is given
    answers 2, not 1: the length passed on is [n]. *)
Lemma C6_counterexample_delegate_receives_n :
  let probe := fun (_ : list byte) (len : Z) => len in
  let probe_is_1 := fun (_ : list byte) (len : Z) => len =? 1 in
  result (yp_gbk_codepoint 2) [x41; x42] = Some (0x41, 1)
  /\ result (yp_encoding_gbk_alpha_char probe 2) [x41; x42]
     <> Some (probe [x41] 1)
  /\ result (yp_encoding_gbk_alnum_char probe 2) [x41; x42]
     <> Some (probe [x41] 1)
  /\ result (yp_encoding_gbk_isupper_char probe_is_1 2) [x41; x42]
     <> Some (probe_is_1 [x41] 1).
Proof.
  repeat split; vm_compute; discriminate.
Qed.

(** C6, as the code has it: when the decoder yields width 1 the window
    starts with a byte below [0x80], the codepoint is that byte, and each
    of [alpha_char], [alnum_char], [isupper_char] returns what its
    single-byte classifier returns on the one-byte buffer holding that
    byte and the length [n] of the window. *)
Theorem C6_width_1_delegates_one_byte_and_n :
  forall (ascii_alpha ascii_alnum : list byte -> Z -> Z)
         (ascii_isupper : list byte -> Z -> bool)
         (n : Z) (buf : list byte) (cp : Z),
    result (yp_gbk_codepoint n) buf = Some (cp, 1) ->
    exists (b0 : byte) (rest : list byte),
      buf = b0 :: rest
      /\ cp = uc b0
      /\ result (yp_encoding_gbk_alpha_char ascii_alpha n) buf
         = Some (ascii_alpha [b0] n)
      /\ result (yp_encoding_gbk_alnum_char ascii_alnum n) buf
         = Some (ascii_alnum [b0] n)
      /\ result (yp_encoding_gbk_isupper_char ascii_isupper n) buf
         = Some (ascii_isupper [b0] n).
Proof.
  intros ascii_alpha ascii_alnum ascii_isupper n buf cp E.
  destruct (decoder_width n buf cp 1 E)
    as [(_ & b0 & rest & -> & Hlt & ->)|[[H _]|[H _]]]; try discriminate.
  exists b0, rest.
  rewrite result_alpha_char, result_alnum_char, result_isupper_char, E.
  simpl. rewrite to_char_uc. auto.
Qed.

Lemma C6_width_1_delegates_one_byte_and_n_witness :
  let f := fun (c : list byte) (len : Z) => Z.of_nat (List.length c) + len in
  let g := fun (c : list byte) (len : Z) => len =? 2 in
  result (yp_gbk_codepoint 2) [x41; x42] = Some (0x41, 1)
  /\ exists (b0 : byte) (rest : list byte),
      [x41; x42] = b0 :: rest
      /\ 0x41 = uc b0
      /\ result (yp_encoding_gbk_alpha_char f 2) [x41; x42] = Some (f [b0] 2)
      /\ result (yp_encoding_gbk_alnum_char f 2) [x41; x42] = Some (f [b0] 2)
      /\ result (yp_encoding_gbk_isupper_char g 2) [x41; x42]
         = Some (g [b0] 2).
Proof.
  intros f g. split; [reflexivity|].
  apply (C6_width_1_delegates_one_byte_and_n f f g 2 [x41; x42] 0x41).
  reflexivity.
Defined.

(** C7: when the decoder yields a width other than 1, [alpha_char] and
    [alnum_char] return 0 and [isupper_char] returns false; so
    [isupper_char] is false on every window whose first byte is at least
    [0x80], and [alpha_char] and [alnum_char] are 0 on every pair of the
    five bands. *)
Theorem C7_no_class_beyond_width_1 :
  forall (ascii_alpha ascii_alnum : list byte -> Z -> Z)
         (ascii_isupper : list byte -> Z -> bool),
    (forall (n : Z) (buf : list byte) (cp w : Z),
        result (yp_gbk_codepoint n) buf = Some (cp, w) ->
        w <> 1 ->
        result (yp_encoding_gbk_alpha_char ascii_alpha n) buf = Some 0
        /\ result (yp_encoding_gbk_alnum_char ascii_alnum n) buf = Some 0
        /\ result (yp_encoding_gbk_isupper_char ascii_isupper n) buf
           = Some false)
    /\ (forall (n : Z) (b0 : byte) (rest : list byte),
           1 <= n <= Z.of_nat (List.length (b0 :: rest)) ->
           0x80 <= uc b0 ->
           result (yp_encoding_gbk_isupper_char ascii_isupper n) (b0 :: rest)
           = Some false)
    /\ (forall (n : Z) (b0 b1 : byte) (rest : list byte),
           1 < n ->
           GBK_pair (uc b0) (uc b1) ->
           result (yp_gbk_codepoint n) (b0 :: b1 :: rest)
           = Some (Z.lor (Z.shiftl (uc b0) 8) (uc b1), 2)
           /\ result (yp_encoding_gbk_alpha_char ascii_alpha n)
                (b0 :: b1 :: rest) = Some 0
           /\ result (yp_encoding_gbk_alnum_char ascii_alnum n)
                (b0 :: b1 :: rest) = Some 0).
Proof.
  intros ascii_alpha ascii_alnum ascii_isupper.
  assert (Hw : forall n buf cp w,
             result (yp_gbk_codepoint n) buf = Some (cp, w) ->
             w <> 1 ->
             result (yp_encoding_gbk_alpha_char ascii_alpha n) buf = Some 0
             /\ result (yp_encoding_gbk_alnum_char ascii_alnum n) buf = Some 0
             /\ result (yp_encoding_gbk_isupper_char ascii_isupper n) buf
                = Some false).
  { intros n buf cp w E Hw.
    rewrite result_alpha_char, result_alnum_char, result_isupper_char, E.
    apply Z.eqb_neq in Hw. rewrite Hw. auto. }
  split; [exact Hw|]. split.
  - intros n b0 rest Hn Hge.
    pose proof (runs_result _ _ _ _ (runs_decoder n (b0 :: rest) Hn)) as E.
    destruct (decoded n (b0 :: rest)) as [cp w] eqn:Ed.
    apply (Hw n (b0 :: rest) cp w E).
    intros ->. apply decoder_width in E.
    destruct E as [(_ & b & r & Eb & Hlt & _)|[[H _]|[H _]]];
      try discriminate.
    injection Eb as <- _. lia.
  - intros n b0 b1 rest Hn Hp.
    assert (Hge : 0x80 <= uc b0) by (apply GBK_pair_lead in Hp; lia).
    pose proof (runs_result _ _ _ _ (runs_double n b0 b1 rest Hge Hn)) as E.
    unfold double_or_none in E.
    apply double_byte_iff in Hp. rewrite Hp in E.
    split; [exact E|].
    destruct (Hw n _ _ 2 E ltac:(lia)) as (Ha & Hb & _). auto.
Qed.

Lemma C7_no_class_beyond_width_1_witness :
  let yes := fun (_ : list byte) (_ : Z) => 1 in
  let up := fun (_ : list byte) (_ : Z) => true in
  (result (yp_gbk_codepoint 1) [xb0] = Some (0, 0)
   /\ 0 <> 1
   /\ result (yp_encoding_gbk_alpha_char yes 1) [xb0] = Some 0
   /\ result (yp_encoding_gbk_alnum_char yes 1) [xb0] = Some 0
   /\ result (yp_encoding_gbk_isupper_char up 1) [xb0] = Some false)
  /\ (1 <= 1 <= Z.of_nat (List.length [xff])
      /\ 0x80 <= uc xff
      /\ result (yp_encoding_gbk_isupper_char up 1) [xff] = Some false)
  /\ (1 < 2
      /\ GBK_pair (uc xb0) (uc xa1)
      /\ result (yp_gbk_codepoint 2) [xb0; xa1] = Some (0xB0A1, 2)
      /\ result (yp_encoding_gbk_alpha_char yes 2) [xb0; xa1] = Some 0
      /\ result (yp_encoding_gbk_alnum_char yes 2) [xb0; xa1] = Some 0).
Proof.
  intros yes up.
  destruct (C7_no_class_beyond_width_1 yes yes up) as (H1 & H2 & H3).
  assert (Hp : GBK_pair (uc xb0) (uc xa1))
    by (right; left; vm_compute; intuition discriminate).
  split; [|split].
  - split; [reflexivity|]. split; [lia|].
    apply (H1 1 [xb0] 0 0); [reflexivity|lia].
  - split; [simpl; lia|]. split; [vm_compute; discriminate|].
    apply (H2 1 xff []); [simpl; lia|vm_compute; discriminate].
  - split; [lia|]. split; [exact Hp|].
    apply (H3 2 xb0 xa1 []); [lia|exact Hp].
Defined.

(** * The band table *)

Lemma band_value (k : nat) (g : M bool) (b0 b1 : byte) (rest : list byte) :
  nth_error bands k = Some g ->
  exists (l0 h0 l1 h1 : Z) (hole : bool),
    nth_error
      [(0xA1, 0xA9, 0xA1, 0xFE, false); (0xB0, 0xF7, 0xA1, 0xFE, false);
       (0x81, 0xA0, 0x40, 0xFE, true); (0xAA, 0xFE, 0x40, 0xA0, true);
       (0xA8, 0xA9, 0x40, 0xA0, true)] k = Some (l0, h0, l1, h1, hole)
    /\ result g (b0 :: b1 :: rest)
       = Some (inb l0 h0 (uc b0) && inb l1 h1 (uc b1)
               && (if hole then negb (uc b1 =? 0x7F) else true)).
Proof.
  intros E.
  destruct k as [|[|[|[|[|k]]]]]; try (destruct k; discriminate);
    injection E as <-; do 5 eexists; (split; [reflexivity|]);
    try rewrite andb_true_r.
  - exact (runs_result _ _ _ _ (runs_gbk_1 b0 b1 rest)).
  - exact (runs_result _ _ _ _ (runs_gbk_2 b0 b1 rest)).
  - exact (runs_result _ _ _ _ (runs_gbk_3 b0 b1 rest)).
  - exact (runs_result _ _ _ _ (runs_gbk_4 b0 b1 rest)).
  - exact (runs_result _ _ _ _ (runs_gbk_5 b0 b1 rest)).
Qed.

(** C8: no pair of bytes lies in the lead and trail intervals of two
    different bands, and a pair decoded to width 2 makes exactly one of
    the five band tests true. *)
Theorem C8_bands_pairwise_disjoint :
  (forall (i j : nat) (box_i box_j : M bool) (b0 b1 : byte)
          (rest : list byte),
      nth_error band_boxes i = Some box_i ->
      nth_error band_boxes j = Some box_j ->
      result box_i (b0 :: b1 :: rest) = Some true ->
      result box_j (b0 :: b1 :: rest) = Some true ->
      i = j)
  /\ (forall (n : Z) (b0 b1 : byte) (rest : list byte),
         1 < n ->
         result (yp_encoding_gbk_char_width n) (b0 :: b1 :: rest) = Some 2 ->
         exists (i : nat) (g : M bool),
           nth_error bands i = Some g
           /\ result g (b0 :: b1 :: rest) = Some true
           /\ forall (j : nat) (g' : M bool),
               nth_error bands j = Some g' ->
               result g' (b0 :: b1 :: rest) = Some true ->
               j = i).
Proof.
  split.
  - intros i j box_i box_j b0 b1 rest Ei Ej Hi Hj.
    destruct (box_value i box_i b0 b1 rest Ei)
      as (l0 & h0 & l1 & h1 & Ti & Vi).
    destruct (box_value j box_j b0 b1 rest Ej)
      as (l0' & h0' & l1' & h1' & Tj & Vj).
    rewrite Vi in Hi. rewrite Vj in Hj.
    injection Hi as Hi. injection Hj as Hj.
    destruct i as [|[|[|[|[|i]]]]]; try (destruct i; discriminate);
      injection Ti as <- <- <- <-;
      destruct j as [|[|[|[|[|j]]]]]; try (destruct j; discriminate);
      injection Tj as <- <- <- <-;
      try reflexivity; exfalso; bool_to_prop; lia.
  - intros n b0 b1 rest Hn Hw.
    assert (Huniq : forall i j g g',
               nth_error bands i = Some g ->
               nth_error bands j = Some g' ->
               result g (b0 :: b1 :: rest) = Some true ->
               result g' (b0 :: b1 :: rest) = Some true ->
               j = i).
    { intros i j g g' Ei Ej Hi Hj.
      destruct (band_value i g b0 b1 rest Ei)
        as (l0 & h0 & l1 & h1 & o & Ti & Vi).
      destruct (band_value j g' b0 b1 rest Ej)
        as (l0' & h0' & l1' & h1' & o' & Tj & Vj).
      rewrite Vi in Hi. rewrite Vj in Hj.
      injection Hi as Hi. injection Hj as Hj.
      destruct i as [|[|[|[|[|i]]]]]; try (destruct i; discriminate);
        injection Ti as <- <- <- <- <-;
        destruct j as [|[|[|[|[|j]]]]]; try (destruct j; discriminate);
        injection Tj as <- <- <- <- <-;
        try reflexivity; exfalso; bool_to_prop; lia. }
    assert (Hge : 0x80 <= uc b0).
    { destruct (Z.ltb_spec (uc b0) 0x80) as [Hlt|Hge]; [|assumption].
      rewrite (runs_result _ _ _ _
                 (runs_char_width _ _ _ _
                    (runs_single n b0 (b1 :: rest) Hlt))) in Hw.
      discriminate. }
    rewrite (runs_result _ _ _ _
               (runs_char_width _ _ _ _
                  (runs_double n b0 b1 rest Hge Hn))) in Hw.
    unfold double_or_none in Hw.
    destruct (double_byte (uc b0) (uc b1)) eqn:Hd; [|discriminate].
    unfold double_byte in Hd.
    repeat (apply orb_true_iff in Hd; destruct Hd as [Hd|Hd]).
    + exists 0%nat, gbk_1. split; [reflexivity|]. split.
      * rewrite (runs_result _ _ _ _ (runs_gbk_1 b0 b1 rest)), Hd.
        reflexivity.
      * intros j g' Ej Hj. eapply Huniq; [reflexivity|exact Ej| |exact Hj].
        rewrite (runs_result _ _ _ _ (runs_gbk_1 b0 b1 rest)), Hd.
        reflexivity.
    + exists 1%nat, gbk_2. split; [reflexivity|]. split.
      * rewrite (runs_result _ _ _ _ (runs_gbk_2 b0 b1 rest)), Hd.
        reflexivity.
      * intros j g' Ej Hj. eapply Huniq; [reflexivity|exact Ej| |exact Hj].
        rewrite (runs_result _ _ _ _ (runs_gbk_2 b0 b1 rest)), Hd.
        reflexivity.
    + exists 2%nat, gbk_3. split; [reflexivity|]. split.
      * rewrite (runs_result _ _ _ _ (runs_gbk_3 b0 b1 rest)), Hd.
        reflexivity.
      * intros j g' Ej Hj. eapply Huniq; [reflexivity|exact Ej| |exact Hj].
        rewrite (runs_result _ _ _ _ (runs_gbk_3 b0 b1 rest)), Hd.
        reflexivity.
    + exists 3%nat, gbk_4. split; [reflexivity|]. split.
      * rewrite (runs_result _ _ _ _ (runs_gbk_4 b0 b1 rest)), Hd.
        reflexivity.
      * intros j g' Ej Hj. eapply Huniq; [reflexivity|exact Ej| |exact Hj].
        rewrite (runs_result _ _ _ _ (runs_gbk_4 b0 b1 rest)), Hd.
        reflexivity.
    + exists 4%nat, gbk_5. split; [reflexivity|]. split.
      * rewrite (runs_result _ _ _ _ (runs_gbk_5 b0 b1 rest)), Hd.
        reflexivity.
      * intros j g' Ej Hj. eapply Huniq; [reflexivity|exact Ej| |exact Hj].
        rewrite (runs_result _ _ _ _ (runs_gbk_5 b0 b1 rest)), Hd.
        reflexivity.
Qed.

Lemma C8_bands_pairwise_disjoint_witness :
  nth_error band_boxes 1 = Some (gbk_2_lead &&& gbk_2_trail)
  /\ result (gbk_2_lead &&& gbk_2_trail) [xb0; xa1] = Some true
  /\ 1%nat = 1%nat
  /\ (1 < 2
      /\ result (yp_encoding_gbk_char_width 2) [xb0; xa1] = Some 2
      /\ exists (i : nat) (g : M bool),
          nth_error bands i = Some g
          /\ result g [xb0; xa1] = Some true
          /\ forall (j : nat) (g' : M bool),
              nth_error bands j = Some g' ->
              result g' [xb0; xa1] = Some true ->
              j = i).
Proof.
  split; [reflexivity|]. split; [reflexivity|]. split.
  - apply (proj1 C8_bands_pairwise_disjoint 1%nat 1%nat
             (gbk_2_lead &&& gbk_2_trail) (gbk_2_lead &&& gbk_2_trail)
             xb0 xa1 []); reflexivity.
  - split; [lia|]. split; [reflexivity|].
    apply (proj2 C8_bands_pairwise_disjoint 2 xb0 xa1 []);
      [lia|reflexivity].
Defined.

(** * What the result depends on *)

Lemma guard_only (n1 n2 : Z) :
  (1 <? n1) = (1 <? n2) -> yp_gbk_codepoint n1 = yp_gbk_codepoint n2.
Proof.
  intros E. unfold yp_gbk_codepoint. rewrite E. reflexivity.
Qed.

Lemma result_two_bytes (n : Z) (b0 b1 : byte) (r1 r2 : list byte) :
  result (yp_gbk_codepoint n) (b0 :: b1 :: r1)
  = result (yp_gbk_codepoint n) (b0 :: b1 :: r2).
Proof.
  destruct (Z.ltb_spec (uc b0) 0x80) as [Hlt|Hge].
  - rewrite (runs_result _ _ _ _ (runs_single n b0 (b1 :: r1) Hlt)).
    rewrite (runs_result _ _ _ _ (runs_single n b0 (b1 :: r2) Hlt)).
    reflexivity.
  - destruct (Z.ltb_spec 1 n) as [Hn|Hn].
    + rewrite (runs_result _ _ _ _ (runs_double n b0 b1 r1 Hge Hn)).
      rewrite (runs_result _ _ _ _ (runs_double n b0 b1 r2 Hge Hn)).
      reflexivity.
    + rewrite (runs_result _ _ _ _ (runs_short n b0 (b1 :: r1) Hge Hn)).
      rewrite (runs_result _ _ _ _ (runs_short n b0 (b1 :: r2) Hge Hn)).
      reflexivity.
Qed.

Lemma result_one_byte (n : Z) (b0 : byte) (r1 r2 : list byte) :
  n <= 1 ->
  result (yp_gbk_codepoint n) (b0 :: r1)
  = result (yp_gbk_codepoint n) (b0 :: r2).
Proof.
  intros Hn. destruct (Z.ltb_spec (uc b0) 0x80) as [Hlt|Hge].
  - rewrite (runs_result _ _ _ _ (runs_single n b0 r1 Hlt)).
    rewrite (runs_result _ _ _ _ (runs_single n b0 r2 Hlt)).
    reflexivity.
  - rewrite (runs_result _ _ _ _ (runs_short n b0 r1 Hge Hn)).
    rewrite (runs_result _ _ _ _ (runs_short n b0 r2 Hge Hn)).
    reflexivity.
Qed.

(** C10: two windows with [n >= 2] that agree on their first two bytes,
    or with [n = 1] that agree on their first byte, give the same
    codepoint and width, and the same [char_width]; the lengths may differ
    as long as both exceed 1. *)
Theorem C10_result_depends_on_two_bytes_and_guard :
  (forall (n1 n2 : Z) (buf1 buf2 : list byte),
      2 <= n1 -> 2 <= n2 ->
      firstn 2 buf1 = firstn 2 buf2 ->
      result (yp_gbk_codepoint n1) buf1 = result (yp_gbk_codepoint n2) buf2
      /\ result (yp_encoding_gbk_char_width n1) buf1
         = result (yp_encoding_gbk_char_width n2) buf2)
  /\ (forall (buf1 buf2 : list byte),
         firstn 1 buf1 = firstn 1 buf2 ->
         result (yp_gbk_codepoint 1) buf1 = result (yp_gbk_codepoint 1) buf2
         /\ result (yp_encoding_gbk_char_width 1) buf1
            = result (yp_encoding_gbk_char_width 1) buf2).
Proof.
  split.
  - intros n1 n2 buf1 buf2 H1 H2 Hf.
    assert (E : result (yp_gbk_codepoint n1) buf1
                = result (yp_gbk_codepoint n2) buf2).
    { rewrite (guard_only n1 n2)
        by (destruct (Z.ltb_spec 1 n1), (Z.ltb_spec 1 n2); reflexivity || lia).
      destruct buf1 as [|x [|y r1]]; destruct buf2 as [|x' [|y' r2]];
        simpl in Hf; try discriminate; try reflexivity.
      - injection Hf as <-. reflexivity.
      - injection Hf as <- <-. apply result_two_bytes. }
    split; [exact E|]. rewrite !result_char_width, E. reflexivity.
  - intros buf1 buf2 Hf.
    assert (E : result (yp_gbk_codepoint 1) buf1
                = result (yp_gbk_codepoint 1) buf2).
    { destruct buf1 as [|x r1]; destruct buf2 as [|x' r2];
        simpl in Hf; try discriminate; try reflexivity.
      injection Hf as <-. apply result_one_byte. lia. }
    split; [exact E|]. rewrite !result_char_width, E. reflexivity.
Qed.

Lemma C10_result_depends_on_two_bytes_and_guard_witness :
  (2 <= 2 /\ 2 <= 5
   /\ firstn 2 [xb0; xa1] = firstn 2 [xb0; xa1; x41; x00; xff]
   /\ result (yp_gbk_codepoint 2) [xb0; xa1]
      = result (yp_gbk_codepoint 5) [xb0; xa1; x41; x00; xff]
   /\ result (yp_encoding_gbk_char_width 2) [xb0; xa1]
      = result (yp_encoding_gbk_char_width 5) [xb0; xa1; x41; x00; xff])
  /\ (firstn 1 [xb0] = firstn 1 [xb0; xa1]
      /\ result (yp_gbk_codepoint 1) [xb0]
         = result (yp_gbk_codepoint 1) [xb0; xa1]
      /\ result (yp_encoding_gbk_char_width 1) [xb0]
         = result (yp_encoding_gbk_char_width 1) [xb0; xa1]).
Proof.
  split.
  - split; [lia|]. split; [lia|]. split; [reflexivity|].
    apply (proj1 C10_result_depends_on_two_bytes_and_guard
             2 5 [xb0; xa1] [xb0; xa1; x41; x00; xff]);
      [lia|lia|reflexivity].
  - split; [reflexivity|].
    apply (proj2 C10_result_depends_on_two_bytes_and_guard
             [xb0] [xb0; xa1]).
    reflexivity.
Defined.

(** * Further properties of the decoder and of the queries *)

(** ** Loads, on any buffer *)

Section LoadsBelow.

Context {A B : Type}.
Variable k : nat.

Lemma loads_below_ret (a : A) : loads_below k (ret a).
Proof.
  intros buf a' t E. injection E as _ <-. constructor.
Qed.

Lemma loads_below_load (i : nat) : (i < k)%nat -> loads_below k (load i).
Proof.
  intros Hi buf b t. unfold load.
  destruct (nth_error buf i); [|discriminate].
  intros E. injection E as _ <-. repeat constructor. assumption.
Qed.

Lemma loads_below_bind (m : M A) (f : A -> M B) :
  loads_below k m -> (forall a, loads_below k (f a)) ->
  loads_below k (bind m f).
Proof.
  intros Hm Hf buf b t. unfold bind.
  destruct (m buf) as [[a t1]|] eqn:E1; [|discriminate].
  destruct (f a buf) as [[b' t2]|] eqn:E2; [|discriminate].
  intros E. injection E as _ <-.
  apply Forall_app. split; [eapply Hm|eapply Hf]; eassumption.
Qed.

End LoadsBelow.

Ltac loads_below_step :=
  first
    [ apply loads_below_ret
    | apply loads_below_load; lia
    | apply loads_below_bind; [|intros []]
    | apply loads_below_bind; [|intro] ].

Lemma loads_below_between (i : nat) (lo hi : Z) :
  (i < 2)%nat -> loads_below 2 (between i lo hi).
Proof.
  intros Hi. unfold between, and_c, ge_c, le_c, uc_at.
  repeat loads_below_step.
Qed.

Lemma loads_below_bands :
  loads_below 2 (gbk_1 ||| gbk_2 ||| gbk_3 ||| gbk_4 ||| gbk_5).
Proof.
  unfold gbk_1, gbk_2, gbk_3, gbk_4, gbk_5,
    gbk_1_lead, gbk_2_lead, gbk_3_lead, gbk_4_lead, gbk_5_lead,
    gbk_1_trail, gbk_2_trail, gbk_3_trail, gbk_4_trail, gbk_5_trail.
  unfold or_c, and_c, ne_c, uc_at.
  repeat first
    [ apply loads_below_between; lia
    | loads_below_step ].
Qed.

Lemma loads_below_decoder (n : Z) : loads_below 2 (yp_gbk_codepoint n).
Proof.
  unfold yp_gbk_codepoint, lt_c, uc_at.
  apply loads_below_bind; [repeat loads_below_step|].
  intros [|]; [repeat loads_below_step|].
  apply loads_below_bind.
  - unfold and_c at 1. apply loads_below_bind; [apply loads_below_ret|].
    intros [|]; [apply loads_below_bands|apply loads_below_ret].
  - intros [|]; repeat loads_below_step.
Qed.

(** The queries load what the decoder loads, and return where it does. *)
Section QueryLoads.

Variable ascii_alpha ascii_alnum : list byte -> Z -> Z.
Variable ascii_isupper : list byte -> Z -> bool.
Variable n : Z.
Variable buf : list byte.

Lemma reads_char_width :
  reads (yp_encoding_gbk_char_width n) buf = reads (yp_gbk_codepoint n) buf.
Proof.
  unfold reads, yp_encoding_gbk_char_width, bind.
  destruct (yp_gbk_codepoint n buf) as [[[cp w] t]|]; [|reflexivity].
  simpl. rewrite app_nil_r. reflexivity.
Qed.

Lemma reads_alpha_char :
  reads (yp_encoding_gbk_alpha_char ascii_alpha n) buf
  = reads (yp_gbk_codepoint n) buf.
Proof.
  unfold reads, yp_encoding_gbk_alpha_char, bind.
  destruct (yp_gbk_codepoint n buf) as [[[cp w] t]|]; [|reflexivity].
  destruct (w =? 1); simpl; rewrite app_nil_r; reflexivity.
Qed.

Lemma reads_alnum_char :
  reads (yp_encoding_gbk_alnum_char ascii_alnum n) buf
  = reads (yp_gbk_codepoint n) buf.
Proof.
  unfold reads, yp_encoding_gbk_alnum_char, bind.
  destruct (yp_gbk_codepoint n buf) as [[[cp w] t]|]; [|reflexivity].
  destruct (w =? 1); simpl; rewrite app_nil_r; reflexivity.
Qed.

Lemma reads_isupper_char :
  reads (yp_encoding_gbk_isupper_char ascii_isupper n) buf
  = reads (yp_gbk_codepoint n) buf.
Proof.
  unfold reads, yp_encoding_gbk_isupper_char, bind.
  destruct (yp_gbk_codepoint n buf) as [[[cp w] t]|]; [|reflexivity].
  destruct (w =? 1); simpl; rewrite app_nil_r; reflexivity.
Qed.

End QueryLoads.

Lemma reads_some {A} (m : M A) (buf : list byte) (a : A) (t : list nat) :
  m buf = Some (a, t) -> reads m buf = Some t.
Proof. intros E. unfold reads. rewrite E. reflexivity. Qed.

Lemma reads_inv {A} (m : M A) (buf : list byte) (t : list nat) :
  reads m buf = Some t -> exists a, m buf = Some (a, t).
Proof.
  unfold reads. destruct (m buf) as [[a t']|]; [|discriminate].
  intros E. injection E as <-. eauto.
Qed.

(** Transport of a property of the decoder's loads to a query with the
    same loads. *)
Lemma loads_as_decoder {A} (q : M A) (n : Z) (P : list nat -> Prop) :
  (forall buf, reads q buf = reads (yp_gbk_codepoint n) buf) ->
  (forall buf r t, yp_gbk_codepoint n buf = Some (r, t) -> P t) ->
  forall buf a t, q buf = Some (a, t) -> P t.
Proof.
  intros Hq Hd buf a t E.
  apply reads_some in E. rewrite Hq in E.
  destruct (reads_inv _ _ _ E) as [r Er]. exact (Hd buf r t Er).
Qed.

(** X1: whatever the buffer and whatever [n] (0, negative, or larger than
    the buffer), a run of the decoder or of any of the four queries that
    returns has loaded indexes 0 and 1 only: no third byte of the window is
    ever read. *)
Theorem X1_no_load_beyond_index_1 :
  forall (ascii_alpha ascii_alnum : list byte -> Z -> Z)
         (ascii_isupper : list byte -> Z -> bool) (n : Z),
    loads_below 2 (yp_gbk_codepoint n)
    /\ loads_below 2 (yp_encoding_gbk_char_width n)
    /\ loads_below 2 (yp_encoding_gbk_alpha_char ascii_alpha n)
    /\ loads_below 2 (yp_encoding_gbk_alnum_char ascii_alnum n)
    /\ loads_below 2 (yp_encoding_gbk_isupper_char ascii_isupper n).
Proof.
  intros ascii_alpha ascii_alnum ascii_isupper n.
  pose proof (loads_below_decoder n) as Hd.
  repeat apply conj; [exact Hd| | | |];
    unfold loads_below;
    apply (loads_as_decoder _ n (Forall (fun i => (i < 2)%nat)));
    try exact Hd; intros buf.
  - apply reads_char_width.
  - apply reads_alpha_char.
  - apply reads_alnum_char.
  - apply reads_isupper_char.
Qed.

(** ** Every path of the decoder *)

Ltac split_cmp :=
  repeat match goal with
    | |- context [Z.ltb ?a ?b] =>
        destruct (Z.ltb_spec a b); cbv iota beta; try (exfalso; lia)
    | |- context [Z.leb ?a ?b] =>
        destruct (Z.leb_spec a b); cbv iota beta; try (exfalso; lia)
    | |- context [Z.eqb ?a ?b] =>
        destruct (Z.eqb_spec a b); cbv iota beta; try (exfalso; lia)
    end.

Ltac decoder_paths :=
  cbv [yp_gbk_codepoint gbk_1 gbk_2 gbk_3 gbk_4 gbk_5
       gbk_1_lead gbk_2_lead gbk_3_lead gbk_4_lead gbk_5_lead
       gbk_1_trail gbk_2_trail gbk_3_trail gbk_4_trail gbk_5_trail
       between lt_c ge_c le_c ne_c and_c or_c uc_at bind ret load nth_error
       app negb].

(** On a buffer of two bytes or more: index 1 is among the loads exactly
    when [n > 1] and the first byte is in [0x81..0xFE], and there are at
    most 15 loads. *)
Lemma paths_two_bytes (n : Z) (b0 b1 : byte) (rest : list byte)
      (r : Z * Z) (t : list nat) :
  yp_gbk_codepoint n (b0 :: b1 :: rest) = Some (r, t) ->
  (In 1%nat t <-> 1 < n /\ 0x81 <= uc b0 <= 0xFE)
  /\ (List.length t <= 15)%nat.
Proof.
  decoder_paths.
  pose proof (uc_range b0) as R0. pose proof (uc_range b1) as R1.
  split_cmp.
  all: intros E; injection E as _ <-.
  all: split; [|simpl; lia].
  all: split;
    [ intros Hin; try (split; lia);
      simpl in Hin; exfalso; intuition (discriminate || lia)
    | intros Hc; try (exfalso; lia); simpl; auto 20 ].
Qed.

(** On a buffer of one byte: the run has no result exactly when [n > 1]
    and the byte is in [0x81..0xFE]; when it returns, the width is not 2
    and the loads, at most 11, are all of index 0. *)
Lemma paths_one_byte (n : Z) (b0 : byte) :
  (yp_gbk_codepoint n [b0] = None <-> 1 < n /\ 0x81 <= uc b0 <= 0xFE)
  /\ (forall (r : Z * Z) (t : list nat),
         yp_gbk_codepoint n [b0] = Some (r, t) ->
         snd r <> 2 /\ Forall (eq 0%nat) t /\ (List.length t <= 11)%nat).
Proof.
  decoder_paths.
  pose proof (uc_range b0) as R0.
  split; [split|].
  - split_cmp; intros E; try discriminate E; lia.
  - intros Hc. split_cmp; reflexivity.
  - intros r t. split_cmp; intros E; try discriminate E.
    all: injection E as <- <-; simpl.
    all: split; [lia|]; split; [repeat constructor|lia].
Qed.

Lemma result_inv {A} (m : M A) (buf : list byte) (a : A) :
  result m buf = Some a -> exists t, m buf = Some (a, t).
Proof.
  unfold result. destruct (m buf) as [[a' t]|]; [|discriminate].
  intros E. injection E as <-. eauto.
Qed.

(** The three outcomes again, with the bytes behind each. *)
Lemma decoder_inv (n : Z) (buf : list byte) (cp w : Z) :
  result (yp_gbk_codepoint n) buf = Some (cp, w) ->
  (w = 1 /\ exists b0 rest, buf = b0 :: rest /\ uc b0 < 0x80 /\ cp = uc b0)
  \/ (w = 2 /\ 1 < n
      /\ exists b0 b1 rest,
          buf = b0 :: b1 :: rest
          /\ GBK_pair (uc b0) (uc b1)
          /\ cp = Z.lor (Z.shiftl (uc b0) 8) (uc b1))
  \/ (w = 0 /\ cp = 0).
Proof.
  intros E.
  destruct (decoder_width n buf cp w E) as [H1|[[-> Hn]|H0]]; auto.
  right; left. split; [reflexivity|]. split; [assumption|].
  destruct buf as [|b0 [|b1 rest]].
  - discriminate E.
  - destruct (result_inv _ _ _ E) as [t Et].
    destruct (proj2 (paths_one_byte n b0) _ _ Et) as [Hw _].
    simpl in Hw. congruence.
  - exists b0, b1, rest. split; [reflexivity|].
    destruct (Z.ltb_spec (uc b0) 0x80) as [Hlt|Hge].
    + rewrite (runs_result _ _ _ _ (runs_single n b0 (b1 :: rest) Hlt)) in E.
      discriminate E.
    + rewrite (runs_result _ _ _ _ (runs_double n b0 b1 rest Hge Hn)) in E.
      unfold double_or_none in E.
      destruct (double_byte (uc b0) (uc b1)) eqn:Hd; [|discriminate E].
      injection E as <-. split; [|reflexivity].
      apply double_byte_iff. exact Hd.
Qed.

(** A buffer of two bytes is enough for any [n]. *)
Lemma decoder_returns_on_two_bytes (n : Z) (b0 b1 : byte)
      (rest : list byte) :
  exists r t, yp_gbk_codepoint n (b0 :: b1 :: rest) = Some (r, t).
Proof.
  destruct (Z.ltb_spec (uc b0) 0x80) as [Hlt|Hge].
  - destruct (runs_single n b0 (b1 :: rest) Hlt) as (t & E & _). eauto.
  - destruct (Z.ltb_spec 1 n) as [Hn|Hn].
    + destruct (runs_double n b0 b1 rest Hge Hn) as (t & E & _). eauto.
    + destruct (runs_short n b0 (b1 :: rest) Hge Hn) as (t & E & _). eauto.
Qed.

(** ** When the decoder has a result, and when it reads the second byte *)

(** X2: the decoder trusts [n].  It has a result on every buffer of two
    bytes or more, whatever [n] is; on a buffer of one byte it has none
    exactly when [n > 1] and that byte is in [0x81..0xFE] (it then loads
    the missing trail byte); on the empty buffer it never has one. *)
Theorem X2_result_defined_by_buffer_and_lead :
  (forall (n : Z) (b0 b1 : byte) (rest : list byte),
      exists r t, yp_gbk_codepoint n (b0 :: b1 :: rest) = Some (r, t))
  /\ (forall (n : Z) (b0 : byte),
         yp_gbk_codepoint n [b0] = None <-> 1 < n /\ 0x81 <= uc b0 <= 0xFE)
  /\ (forall (n : Z), yp_gbk_codepoint n [] = None).
Proof.
  split; [exact decoder_returns_on_two_bytes|]. split.
  - intros n b0. exact (proj1 (paths_one_byte n b0)).
  - reflexivity.
Qed.

(** X3: on a buffer of two bytes or more the decoder loads index 1 exactly
    when [n > 1] and the first byte is in [0x81..0xFE]; the bytes [0x80]
    and [0xFF], like every byte below [0x80], are settled on the first
    byte alone. *)
Theorem X3_second_byte_loaded_iff_guard_and_lead :
  forall (n : Z) (b0 b1 : byte) (rest : list byte) (r : Z * Z)
         (t : list nat),
    yp_gbk_codepoint n (b0 :: b1 :: rest) = Some (r, t) ->
    (In 1%nat t <-> 1 < n /\ 0x81 <= uc b0 <= 0xFE).
Proof.
  intros n b0 b1 rest r t E.
  exact (proj1 (paths_two_bytes n b0 b1 rest r t E)).
Qed.

Lemma X3_second_byte_loaded_iff_guard_and_lead_witness :
  yp_gbk_codepoint 2 [xff; xa1]
  = Some ((0, 0), [0; 0; 0; 0; 0; 0; 0; 0; 0; 0; 0]%nat)
  /\ (In 1%nat [0; 0; 0; 0; 0; 0; 0; 0; 0; 0; 0]%nat
      <-> 1 < 2 /\ 0x81 <= uc xff <= 0xFE).
Proof.
  split; [reflexivity|].
  apply (X3_second_byte_loaded_iff_guard_and_lead 2 xff xa1 [] (0, 0)).
  reflexivity.
Defined.

Lemma loads_at_most_decoder (n : Z) : loads_at_most 15 (yp_gbk_codepoint n).
Proof.
  intros buf r t E. destruct buf as [|b0 [|b1 rest]].
  - discriminate E.
  - destruct (proj2 (paths_one_byte n b0) r t E) as (_ & _ & Hl). lia.
  - exact (proj2 (paths_two_bytes n b0 b1 rest r t E)).
Qed.

(** X10: a run of the decoder or of any query that returns has loaded at
    most 15 times, whatever the buffer and [n]; [0xA8 0x40] with [n = 2]
    takes all 15. *)
Theorem X10_at_most_15_loads :
  forall (ascii_alpha ascii_alnum : list byte -> Z -> Z)
         (ascii_isupper : list byte -> Z -> bool) (n : Z),
    (loads_at_most 15 (yp_gbk_codepoint n)
     /\ loads_at_most 15 (yp_encoding_gbk_char_width n)
     /\ loads_at_most 15 (yp_encoding_gbk_alpha_char ascii_alpha n)
     /\ loads_at_most 15 (yp_encoding_gbk_alnum_char ascii_alnum n)
     /\ loads_at_most 15 (yp_encoding_gbk_isupper_char ascii_isupper n))
    /\ option_map (@List.length nat) (reads (yp_gbk_codepoint 2) [xa8; x40])
       = Some 15%nat.
Proof.
  intros ascii_alpha ascii_alnum ascii_isupper n.
  split; [|reflexivity].
  pose proof (loads_at_most_decoder n) as Hd.
  repeat apply conj; [exact Hd| | | |];
    unfold loads_at_most;
    apply (loads_as_decoder _ n (fun t => (List.length t <= 15)%nat));
    try exact Hd; intros buf.
  - apply reads_char_width.
  - apply reads_alpha_char.
  - apply reads_alnum_char.
  - apply reads_isupper_char.
Qed.

(** ** Which bytes make a double-byte character *)

Lemma result_of_pair (n : Z) (b0 b1 : byte) (rest : list byte) :
  1 < n -> GBK_pair (uc b0) (uc b1) ->
  result (yp_gbk_codepoint n) (b0 :: b1 :: rest)
  = Some (Z.lor (Z.shiftl (uc b0) 8) (uc b1), 2).
Proof.
  intros Hn Hp.
  assert (Hge : 0x80 <= uc b0) by (apply GBK_pair_lead in Hp; lia).
  rewrite (runs_result _ _ _ _ (runs_double n b0 b1 rest Hge Hn)).
  unfold double_or_none.
  apply double_byte_iff in Hp. rewrite Hp. reflexivity.
Qed.

Lemma pair_of_width_2 (n : Z) (b0 b1 : byte) (rest : list byte) (cp : Z) :
  result (yp_gbk_codepoint n) (b0 :: b1 :: rest) = Some (cp, 2) ->
  GBK_pair (uc b0) (uc b1).
Proof.
  intros E.
  destruct (decoder_inv _ _ _ _ E)
    as [[H _]|[(_ & _ & x & y & r & Eb & Hp & _)|[H _]]]; try discriminate.
  injection Eb as <- <- _. exact Hp.
Qed.

(** X4: the bytes that can begin a double-byte character are exactly
    [0x81..0xFE]: each of them has a trail byte giving width 2, and no
    other byte has; [0x80] and [0xFF] give width 0 and codepoint 0 whatever
    follows and whatever [n] is. *)
Theorem X4_lead_bytes_are_0x81_to_0xFE :
  (forall (b0 : byte),
      (exists (n : Z) (b1 : byte) (rest : list byte) (cp : Z),
          result (yp_gbk_codepoint n) (b0 :: b1 :: rest) = Some (cp, 2))
      <-> 0x81 <= uc b0 <= 0xFE)
  /\ (forall (n : Z) (b0 : byte) (rest : list byte),
         uc b0 = 0x80 \/ uc b0 = 0xFF ->
         result (yp_gbk_codepoint n) (b0 :: rest) = Some (0, 0)).
Proof.
  split.
  - intros b0. split.
    + intros (n & b1 & rest & cp & E).
      apply pair_of_width_2 in E. unfold GBK_pair in E. lia.
    + intros Hl.
      exists 2,
        (if (0xA1 <=? uc b0) && (uc b0 <=? 0xA7) then xa1 else xa0), [].
      eexists. apply result_of_pair; [lia|].
      destruct ((0xA1 <=? uc b0) && (uc b0 <=? 0xA7)) eqn:Hc.
      * bool_to_prop. change (uc xa1) with 0xA1. unfold GBK_pair. lia.
      * apply andb_false_iff in Hc.
        rewrite Z.leb_gt, Z.leb_gt in Hc.
        change (uc xa0) with 0xA0. unfold GBK_pair. lia.
  - intros n b0 rest Hb.
    assert (Hge : 0x80 <= uc b0) by lia.
    destruct rest as [|b1 rest].
    + destruct (yp_gbk_codepoint n [b0]) as [[[cp w] t]|] eqn:E.
      * destruct (proj2 (paths_one_byte n b0) _ _ E) as (Hw & _).
        assert (Er : result (yp_gbk_codepoint n) [b0] = Some (cp, w))
          by (unfold result; rewrite E; reflexivity).
        rewrite Er.
        destruct (decoder_width _ _ _ _ Er)
          as [(_ & x & r & Eb & Hlt & _)|[[H _]|[-> ->]]].
        -- injection Eb as <- _. lia.
        -- simpl in Hw. congruence.
        -- reflexivity.
      * apply (proj1 (paths_one_byte n b0)) in E. lia.
    + destruct (Z.ltb_spec 1 n) as [Hn|Hn].
      * rewrite (runs_result _ _ _ _ (runs_double n b0 b1 rest Hge Hn)).
        unfold double_or_none.
        replace (double_byte (uc b0) (uc b1)) with false; [reflexivity|].
        symmetry. apply double_byte_false_iff. unfold GBK_pair. lia.
      * exact (runs_result _ _ _ _ (runs_short n b0 (b1 :: rest) Hge Hn)).
Qed.

Lemma X4_lead_bytes_are_0x81_to_0xFE_witness :
  (uc x80 = 0x80 \/ uc x80 = 0xFF)
  /\ result (yp_gbk_codepoint 2) [x80; xa1] = Some (0, 0).
Proof.
  split; [left; reflexivity|].
  apply (proj2 X4_lead_bytes_are_0x81_to_0xFE 2 x80 [xa1]).
  left. reflexivity.
Defined.

(** X5: the bytes that can end a double-byte character are exactly
    [0x40..0xFE] without [0x7F]: each of them follows some lead byte with
    width 2, and no byte below [0x40] (digits, quotes, line ends, NUL),
    nor [0x7F], nor [0xFF], is ever taken as a trail byte. *)
Theorem X5_trail_bytes_are_0x40_to_0xFE_but_0x7F :
  forall (b1 : byte),
    (exists (n : Z) (b0 : byte) (rest : list byte) (cp : Z),
        result (yp_gbk_codepoint n) (b0 :: b1 :: rest) = Some (cp, 2))
    <-> 0x40 <= uc b1 <= 0xFE /\ uc b1 <> 0x7F.
Proof.
  intros b1. split.
  - intros (n & b0 & rest & cp & E).
    apply pair_of_width_2 in E. unfold GBK_pair in E. lia.
  - intros Ht. exists 2, x81, []. eexists.
    apply result_of_pair; [lia|].
    change (uc x81) with 0x81. unfold GBK_pair. lia.
Qed.

Lemma X5_trail_bytes_are_0x40_to_0xFE_but_0x7F_witness :
  (0x40 <= uc xfe <= 0xFE /\ uc xfe <> 0x7F)
  /\ exists (n : Z) (b0 : byte) (rest : list byte) (cp : Z),
      result (yp_gbk_codepoint n) (b0 :: xfe :: rest) = Some (cp, 2).
Proof.
  assert (H : 0x40 <= uc xfe <= 0xFE /\ uc xfe <> 0x7F)
    by (vm_compute; intuition discriminate).
  split; [exact H|].
  exact (proj2 (X5_trail_bytes_are_0x40_to_0xFE_but_0x7F xfe) H).
Defined.

(** ** From the codepoint back to the bytes *)

Lemma split_codepoint (x y : Z) :
  0 <= x < 256 -> 0 <= y < 256 ->
  Z.shiftr (Z.lor (Z.shiftl x 8) y) 8 = x
  /\ Z.land (Z.lor (Z.shiftl x 8) y) 0xFF = y.
Proof.
  intros Hx Hy. rewrite shiftl_lor_bytes by assumption. split.
  - rewrite Z.shiftr_div_pow2 by lia. change (2 ^ 8) with 256.
    rewrite Z.div_add_l by lia. rewrite Z.div_small by lia. lia.
  - change 0xFF with (Z.ones 8). rewrite Z.land_ones by lia.
    change (2 ^ 8) with 256.
    rewrite Z.add_comm, Z.mod_add by lia. apply Z.mod_small. lia.
Qed.

Lemma bytes_of_codepoint (n : Z) (buf : list byte) (cp w : Z) :
  result (yp_gbk_codepoint n) buf = Some (cp, w) ->
  (w = 1 /\ 0 <= cp <= 0x7F /\ exists rest, buf = to_char cp :: rest)
  \/ (w = 2 /\ 0x8140 <= cp <= 0xFEFE
      /\ exists rest,
          buf = to_char (Z.shiftr cp 8) :: to_char (Z.land cp 0xFF) :: rest)
  \/ (w = 0 /\ cp = 0).
Proof.
  intros E.
  destruct (decoder_inv _ _ _ _ E)
    as [(-> & b0 & rest & -> & Hlt & ->)
       |[(-> & _ & b0 & b1 & rest & -> & Hp & ->)|H0]]; auto.
  - left. split; [reflexivity|]. pose proof (uc_range b0). split; [lia|].
    exists rest. rewrite to_char_uc. reflexivity.
  - right; left. split; [reflexivity|].
    pose proof (uc_range b0) as R0. pose proof (uc_range b1) as R1.
    destruct (split_codepoint (uc b0) (uc b1) R0 R1) as [Hhi Hlo].
    split.
    + rewrite shiftl_lor_bytes by assumption. unfold GBK_pair in Hp. lia.
    + exists rest. rewrite Hhi, Hlo, !to_char_uc. reflexivity.
Qed.

(** X6: the codepoint gives back the bytes it was decoded from.  At width
    1 it is at most [0x7F] and the window begins with the byte
    [(char) cp]; at width 2 it lies in [0x8140..0xFEFE] and the window
    begins with [(char) (cp >> 8)], [(char) (cp & 0xFF)]: the cast to
    16 bits has lost nothing. *)
Theorem X6_codepoint_gives_back_the_bytes :
  forall (n : Z) (buf : list byte) (cp w : Z),
    result (yp_gbk_codepoint n) buf = Some (cp, w) ->
    (w = 1 ->
     0 <= cp <= 0x7F /\ exists rest, buf = to_char cp :: rest)
    /\ (w = 2 ->
        0x8140 <= cp <= 0xFEFE
        /\ exists rest,
            buf = to_char (Z.shiftr cp 8) :: to_char (Z.land cp 0xFF)
                    :: rest).
Proof.
  intros n buf cp w E.
  destruct (bytes_of_codepoint n buf cp w E)
    as [(-> & H)|[(-> & H)|(-> & _)]];
    split; intros Hw; try discriminate Hw; exact H.
Qed.

Lemma X6_codepoint_gives_back_the_bytes_witness :
  result (yp_gbk_codepoint 3) [xfe; x40; x41] = Some (0xFE40, 2)
  /\ (2 = 2 ->
      0x8140 <= 0xFE40 <= 0xFEFE
      /\ exists rest,
          [xfe; x40; x41]
          = to_char (Z.shiftr 0xFE40 8) :: to_char (Z.land 0xFE40 0xFF)
              :: rest).
Proof.
  split; [reflexivity|].
  apply (X6_codepoint_gives_back_the_bytes 3 [xfe; x40; x41] 0xFE40 2).
  reflexivity.
Defined.

(** X7: the codepoint identifies the character.  Two windows, of any
    lengths, that decode to the same codepoint with non-zero widths have
    the same width and the same bytes over that width. *)
Theorem X7_decoding_is_injective :
  forall (n1 n2 : Z) (buf1 buf2 : list byte) (cp w1 w2 : Z),
    result (yp_gbk_codepoint n1) buf1 = Some (cp, w1) ->
    result (yp_gbk_codepoint n2) buf2 = Some (cp, w2) ->
    w1 <> 0 -> w2 <> 0 ->
    w1 = w2 /\ firstn (Z.to_nat w1) buf1 = firstn (Z.to_nat w1) buf2.
Proof.
  intros n1 n2 buf1 buf2 cp w1 w2 E1 E2 H1 H2.
  destruct (bytes_of_codepoint _ _ _ _ E1)
    as [(-> & R1 & r1 & ->)|[(-> & R1 & r1 & ->)|(-> & _)]];
    destruct (bytes_of_codepoint _ _ _ _ E2)
      as [(-> & R2 & r2 & ->)|[(-> & R2 & r2 & ->)|(-> & _)]];
    try lia; split; reflexivity.
Qed.

Lemma X7_decoding_is_injective_witness :
  result (yp_gbk_codepoint 2) [xb0; xa1] = Some (0xB0A1, 2)
  /\ result (yp_gbk_codepoint 4) [xb0; xa1; x41; x42] = Some (0xB0A1, 2)
  /\ 2 <> 0
  /\ 2 = 2
  /\ firstn (Z.to_nat 2) [xb0; xa1]
     = firstn (Z.to_nat 2) [xb0; xa1; x41; x42].
Proof.
  split; [reflexivity|]. split; [reflexivity|]. split; [lia|].
  apply (X7_decoding_is_injective 2 4 [xb0; xa1] [xb0; xa1; x41; x42]
           0xB0A1 2 2); [reflexivity|reflexivity|lia|lia].
Defined.

(** ** What the queries ask of the single-byte classifiers *)

Section TwoProviders.

Variable n : Z.
Variable buf : list byte.

Lemma query_value {R} (f g : list byte -> Z -> R) (d : R) :
  (forall b : byte, uc b < 0x80 -> f [b] n = g [b] n) ->
  ('(codepoint, width) <- yp_gbk_codepoint n ;;
   if width =? 1 then ret (f [to_char codepoint] n) else ret d) buf
  = ('(codepoint, width) <- yp_gbk_codepoint n ;;
     if width =? 1 then ret (g [to_char codepoint] n) else ret d) buf.
Proof.
  intros Hfg. unfold bind.
  destruct (yp_gbk_codepoint n buf) as [[[cp w] t]|] eqn:E; [|reflexivity].
  destruct (Z.eqb_spec w 1) as [->|Hw]; [|reflexivity].
  assert (Er : result (yp_gbk_codepoint n) buf = Some (cp, 1))
    by (unfold result; rewrite E; reflexivity).
  destruct (decoder_inv _ _ _ _ Er)
    as [(_ & b0 & rest & _ & Hlt & ->)|[[H _]|[H _]]]; try discriminate.
  rewrite to_char_uc, (Hfg b0 Hlt). reflexivity.
Qed.

End TwoProviders.

(** X8: the queries consult their classifier on nothing but a one-byte
    buffer holding a byte below [0x80], with the length [n]: two
    classifiers that agree on those calls give the same run of
    [alpha_char], of [alnum_char] and of [isupper_char] on every buffer. *)
Theorem X8_classifier_seen_on_ascii_bytes_only :
  forall (alpha alpha' alnum alnum' : list byte -> Z -> Z)
         (isupper isupper' : list byte -> Z -> bool) (n : Z),
    (forall b : byte, uc b < 0x80 -> alpha [b] n = alpha' [b] n) ->
    (forall b : byte, uc b < 0x80 -> alnum [b] n = alnum' [b] n) ->
    (forall b : byte, uc b < 0x80 -> isupper [b] n = isupper' [b] n) ->
    forall buf : list byte,
      yp_encoding_gbk_alpha_char alpha n buf
      = yp_encoding_gbk_alpha_char alpha' n buf
      /\ yp_encoding_gbk_alnum_char alnum n buf
         = yp_encoding_gbk_alnum_char alnum' n buf
      /\ yp_encoding_gbk_isupper_char isupper n buf
         = yp_encoding_gbk_isupper_char isupper' n buf.
Proof.
  intros alpha alpha' alnum alnum' isupper isupper' n Ha Hn Hu buf.
  repeat apply conj.
  - exact (query_value n buf alpha alpha' 0 Ha).
  - exact (query_value n buf alnum alnum' 0 Hn).
  - exact (query_value n buf isupper isupper' false Hu).
Qed.

Lemma X8_classifier_seen_on_ascii_bytes_only_witness :
  let low := fun (c : list byte) (_ : Z) =>
               match c with
               | [b] => if uc b <? 0x80 then 1 else 0
               | _ => 0
               end in
  let all := fun (_ : list byte) (_ : Z) => 1 in
  let up := fun (_ : list byte) (len : Z) => len =? 2 in
  (forall b : byte, uc b < 0x80 -> low [b] 2 = all [b] 2)
  /\ low [xb0] 2 <> all [xb0] 2
  /\ yp_encoding_gbk_alpha_char low 2 [x41; xb0]
     = yp_encoding_gbk_alpha_char all 2 [x41; xb0]
  /\ yp_encoding_gbk_alnum_char low 2 [x41; xb0]
     = yp_encoding_gbk_alnum_char all 2 [x41; xb0]
  /\ yp_encoding_gbk_isupper_char up 2 [x41; xb0]
     = yp_encoding_gbk_isupper_char up 2 [x41; xb0].
Proof.
  intros low all up.
  assert (H : forall b : byte, uc b < 0x80 -> low [b] 2 = all [b] 2).
  { intros b Hb. unfold low, all. apply Z.ltb_lt in Hb. rewrite Hb.
    reflexivity. }
  split; [exact H|]. split; [vm_compute; discriminate|].
  apply (X8_classifier_seen_on_ascii_bytes_only
           low all low all up up 2 H H (fun _ _ => eq_refl) [x41; xb0]).
Defined.

(** X9: through the descriptor, a classification never claims more bytes
    than [char_width] consumes.  With classifiers that answer 0 or 1,
    whenever [alpha_char] or [alnum_char] returns [v], [char_width]
    returns some [w] with [0 <= v <= w] and [w <= 2]; and whenever
    [isupper_char] returns true, [char_width] returns 1. *)
Theorem X9_classification_within_char_width :
  forall (ascii_alpha ascii_alnum : list byte -> Z -> Z)
         (ascii_isupper : list byte -> Z -> bool),
    (forall c len, 0 <= ascii_alpha c len <= 1) ->
    (forall c len, 0 <= ascii_alnum c len <= 1) ->
    forall (n : Z) (buf : list byte),
      let E := yp_encoding_gbk ascii_alpha ascii_alnum ascii_isupper in
      (forall v : Z,
          result (alpha_char E n) buf = Some v ->
          exists w,
            result (char_width E n) buf = Some w /\ 0 <= v <= w /\ w <= 2)
      /\ (forall v : Z,
             result (alnum_char E n) buf = Some v ->
             exists w,
               result (char_width E n) buf = Some w
               /\ 0 <= v <= w /\ w <= 2)
      /\ (result (isupper_char E n) buf = Some true ->
          result (char_width E n) buf = Some 1).
Proof.
  intros ascii_alpha ascii_alnum ascii_isupper Ha Hn n buf E.
  unfold E. simpl.
  rewrite result_alpha_char, result_alnum_char, result_isupper_char,
    result_char_width.
  destruct (result (yp_gbk_codepoint n) buf) as [[cp w]|] eqn:Ed.
  - assert (Hw : w = 0 \/ w = 1 \/ w = 2)
      by (apply decoder_width in Ed; lia).
    simpl. repeat apply conj.
    + intros v Ev. injection Ev as <-. exists w. split; [reflexivity|].
      destruct (Z.eqb_spec w 1) as [->|Hne];
        [pose proof (Ha [to_char cp] n)|]; lia.
    + intros v Ev. injection Ev as <-. exists w. split; [reflexivity|].
      destruct (Z.eqb_spec w 1) as [->|Hne];
        [pose proof (Hn [to_char cp] n)|]; lia.
    + destruct (Z.eqb_spec w 1) as [->|Hne]; [reflexivity|discriminate].
  - repeat apply conj; intros; discriminate.
Qed.

Lemma X9_classification_within_char_width_witness :
  let letter := fun (c : list byte) (_ : Z) =>
                  match c with
                  | [b] => if (0x41 <=? uc b) && (uc b <=? 0x5A) then 1 else 0
                  | _ => 0
                  end in
  let upper := fun (c : list byte) (_ : Z) => Z.eqb (letter c 0) 1 in
  let E := yp_encoding_gbk letter letter upper in
  (forall c len, 0 <= letter c len <= 1)
  /\ (result (alpha_char E 3) [x41; xb0; xa1] = Some 1 ->
      exists w,
        result (char_width E 3) [x41; xb0; xa1] = Some w
        /\ 0 <= 1 <= w /\ w <= 2)
  /\ (result (isupper_char E 3) [x41; xb0; xa1] = Some true ->
      result (char_width E 3) [x41; xb0; xa1] = Some 1).
Proof.
  intros letter upper E.
  assert (H : forall c len, 0 <= letter c len <= 1).
  { intros c len. unfold letter.
    destruct c as [|b [|b' c]]; try lia.
    destruct ((0x41 <=? uc b) && (uc b <=? 0x5A)); lia. }
  split; [exact H|].
  destruct (X9_classification_within_char_width letter letter upper H H
              3 [x41; xb0; xa1]) as (H1 & _ & H3).
  split; [exact (H1 1)|exact H3].
Defined.

Lemma X1_no_load_beyond_index_1_witness :
  yp_gbk_codepoint 7 [xa8; x40; x41]
  = Some ((0xA840, 2),
          [0; 0; 0; 1; 0; 0; 0; 0; 0; 0; 1; 1; 1; 0; 1]%nat)
  /\ Forall (fun i => (i < 2)%nat)
       [0; 0; 0; 1; 0; 0; 0; 0; 0; 0; 1; 1; 1; 0; 1]%nat.
Proof.
  split; [reflexivity|].
  apply (proj1 (X1_no_load_beyond_index_1
                  (fun _ _ => 0) (fun _ _ => 0) (fun _ _ => false) 7)
           [xa8; x40; x41] (0xA840, 2)).
  reflexivity.
Defined.

Lemma X2_result_defined_by_buffer_and_lead_witness :
  (1 < 2 /\ 0x81 <= uc xb0 <= 0xFE)
  /\ yp_gbk_codepoint 2 [xb0] = None.
Proof.
  assert (H : 1 < 2 /\ 0x81 <= uc xb0 <= 0xFE)
    by (vm_compute; intuition discriminate).
  split; [exact H|].
  exact (proj2 (proj1 (proj2 X2_result_defined_by_buffer_and_lead) 2 xb0) H).
Defined.

Lemma X10_at_most_15_loads_witness :
  yp_encoding_gbk_char_width 2 [xa9; xa0]
  = Some (2, [0; 0; 0; 1; 0; 0; 0; 0; 0; 0; 1; 1; 1; 0; 1]%nat)
  /\ (List.length [0; 0; 0; 1; 0; 0; 0; 0; 0; 0; 1; 1; 1; 0; 1]%nat
      <= 15)%nat.
Proof.
  split; [reflexivity|].
  apply (proj1 (proj2 (proj1 (X10_at_most_15_loads
                               (fun _ _ => 0) (fun _ _ => 0)
                               (fun _ _ => false) 2)))
           [xa9; xa0] 2).
  reflexivity.
Defined.
